(** * mint-bot: the conversation thread manager, embedded and verified

    A shallow embedding of [chat_manager.py] (class [ChatManager]), of the
    token counting functions of [ai_handler.py] and of the user ledger of
    [config_loader.py], with the properties their specification states;
    then of the message list of [get_ai_response], of the whitelist of
    [Config] and of the reply handler of [bot_core.py], with properties
    read off the code.

    Modelling conventions.
    - Python values that reach the store from JSON are dynamic, so they are
      embedded as the inductive type [pyval] (the JSON data model).  A
      function that Python would abort with an exception returns [Raise].
    - A Python [dict] is an insertion-ordered association list with the
      update discipline of the interpreter ([dict_set] replaces in place or
      appends, [dict_del] removes).
    - A Python [float] is an exact rational ([Q]): rounding of binary64
      arithmetic is outside the model.  [time.time()] is the argument [now].
    - The tokenizer of [tiktoken] is external; it is the class [Tokenizer].
    - A Python [str] is a Rocq string, one character for each code point:
      the model covers the texts whose code points are below 256, on which
      [String.length] is [len] and [substring] is the slice.  Texts with
      other characters are outside the model.
    - [str(int)] and [int(str)] are the decimal conversions of the
      interpreter on such texts, without its limit on the number of
      digits. *)

From Stdlib Require Import ZArith QArith String Ascii List Bool Lia Lqa.
From Stdlib Require Import DecimalString DecimalZ Qround.
Import ListNotations.

#[local] Set Warnings "-register-all".
Local Open Scope string_scope.
Local Open Scope Z_scope.

(* ===================================================================== *)
(** * Python values, exceptions and dictionaries *)
(* ===================================================================== *)

Module Py.

(** The values [json.load] can produce. *)
Inductive pyval : Type :=
| PNone
| PBool (b : bool)
| PInt (z : Z)
| PFloat (q : Q)
| PStr (s : string)
| PList (l : list pyval)
| PDict (d : list (string * pyval)).

(** The exception classes the embedded code can meet. *)
Inductive exn : Type :=
| ValueError | TypeError | KeyError | AttributeError
| IOError | JSONDecodeError.

Inductive res (A : Type) : Type :=
| Ok (a : A)
| Raise (e : exn).
Arguments Ok {A} a.
Arguments Raise {A} e.

Definition res_bind {A B : Type} (r : res A) (k : A -> res B) : res B :=
  match r with
  | Ok a => k a
  | Raise e => Raise e
  end.

Declare Scope res_scope.
Delimit Scope res_scope with res.
Notation "x <- c ;; k" := (res_bind c (fun x => k))
  (at level 61, c at next level, right associativity) : res_scope.

(** ** Insertion-ordered dictionaries *)

Section Dict.
Context {K V : Type} (eqb : K -> K -> bool).

Fixpoint dict_get (k : K) (d : list (K * V)) : option V :=
  match d with
  | [] => None
  | (k', v) :: d' => if eqb k k' then Some v else dict_get k d'
  end.

Definition dict_mem (k : K) (d : list (K * V)) : bool :=
  match dict_get k d with Some _ => true | None => false end.

(** [d[k] = v]: an existing key keeps its position. *)
Fixpoint dict_set (k : K) (v : V) (d : list (K * V)) : list (K * V) :=
  match d with
  | [] => [(k, v)]
  | (k', v') :: d' =>
      if eqb k k' then (k', v) :: d' else (k', v') :: dict_set k v d'
  end.

(** [del d[k]] for a key that is present. *)
Fixpoint dict_del (k : K) (d : list (K * V)) : list (K * V) :=
  match d with
  | [] => []
  | (k', v') :: d' =>
      if eqb k k' then d' else (k', v') :: dict_del k d'
  end.

Definition keys (d : list (K * V)) : list K := map fst d.
End Dict.

(** ** Truthiness, equality with an [int], subscripts, iteration *)

Definition truthy (v : pyval) : bool :=
  match v with
  | PNone => false
  | PBool b => b
  | PInt z => negb (z =? 0)
  | PFloat q => negb (Qeq_bool q 0)
  | PStr s => negb (s =? "")%string
  | PList l => match l with [] => false | _ => true end
  | PDict d => match d with [] => false | _ => true end
  end.

(** [v == z] for an [int] z ([bool] is a subclass of [int]). *)
Definition py_eq_int (v : pyval) (z : Z) : bool :=
  match v with
  | PInt z' => z' =? z
  | PFloat q => Qeq_bool q (inject_Z z)
  | PBool b => (if b then 1 else 0) =? z
  | _ => false
  end.

(** [v[k]] for a string k. *)
Definition py_getitem (v : pyval) (k : string) : res pyval :=
  match v with
  | PDict d =>
      match dict_get String.eqb k d with
      | Some x => Ok x
      | None => Raise KeyError
      end
  | _ => Raise TypeError
  end.

(** [v.get(k)]: only a dict has the method. *)
Definition py_get (v : pyval) (k : string) : res pyval :=
  match v with
  | PDict d =>
      match dict_get String.eqb k d with
      | Some x => Ok x
      | None => Ok PNone
      end
  | _ => Raise AttributeError
  end.

Fixpoint chars (s : string) : list pyval :=
  match s with
  | EmptyString => []
  | String c s' => PStr (String c EmptyString) :: chars s'
  end.

(** The elements [deque(v)] collects. *)
Definition py_iter (v : pyval) : res (list pyval) :=
  match v with
  | PList l => Ok l
  | PStr s => Ok (chars s)
  | PDict d => Ok (map (fun kv => PStr (fst kv)) d)
  | _ => Raise TypeError
  end.

(** The number a value stands for in float arithmetic. *)
Definition py_number (v : pyval) : res Q :=
  match v with
  | PInt z => Ok (inject_Z z)
  | PFloat q => Ok q
  | PBool b => Ok (if b then 1%Q else 0%Q)
  | _ => Raise TypeError
  end.

Definition Qgtb (a b : Q) : bool := negb (Qle_bool a b).

(** ** [str(int)] and [int(str)] *)

Definition py_str_int (z : Z) : string :=
  NilZero.string_of_int (Z.to_int z).

(** The blanks [int()] strips: the ASCII ones (9 to 13 and 32) and, of
    the characters from 128 on, the two Unicode blanks below 256.  The
    separators 28 to 31 are not stripped. *)
Definition is_space (c : ascii) : bool :=
  let n := nat_of_ascii c in
  ((9 <=? n)%nat && (n <=? 13)%nat) || (n =? 32)%nat
  || (n =? 133)%nat || (n =? 160)%nat.

Definition digit_of (c : ascii) : option (Decimal.uint -> Decimal.uint) :=
  match c with
  | "0"%char => Some Decimal.D0
  | "1"%char => Some Decimal.D1
  | "2"%char => Some Decimal.D2
  | "3"%char => Some Decimal.D3
  | "4"%char => Some Decimal.D4
  | "5"%char => Some Decimal.D5
  | "6"%char => Some Decimal.D6
  | "7"%char => Some Decimal.D7
  | "8"%char => Some Decimal.D8
  | "9"%char => Some Decimal.D9
  | _ => None
  end.

Fixpoint all_space (s : string) : bool :=
  match s with
  | EmptyString => true
  | String c s' => is_space c && all_space s'
  end.

(** Digits, single underscores between digits, then trailing blanks.
    [need] says that the next character has to be a digit. *)
Fixpoint parse_digits (need : bool) (s : string) : option Decimal.uint :=
  match s with
  | EmptyString => if need then None else Some Decimal.Nil
  | String c s' =>
      match digit_of c with
      | Some d => option_map d (parse_digits false s')
      | None =>
          if need then None
          else if (c =? "_")%char then parse_digits true s'
          else if all_space s then Some Decimal.Nil
          else None
      end
  end.

Fixpoint skip_space (s : string) : string :=
  match s with
  | String c s' => if is_space c then skip_space s' else s
  | EmptyString => s
  end.

Definition py_int_of_str (s : string) : res Z :=
  let body := skip_space s in
  let '(neg, ds) :=
    match body with
    | String "-"%char r => (true, r)
    | String "+"%char r => (false, r)
    | _ => (false, body)
    end in
  match parse_digits true ds with
  | Some u => Ok (if neg then - Z.of_uint u else Z.of_uint u)
  | None => Raise ValueError
  end.

End Py.
Import Py.

(* ===================================================================== *)
(** * ai_handler.py: token counting *)
(* ===================================================================== *)

Module AiHandler.

(** [tokenizer.encode] of the tokenizer [get_tokenizer()] has cached. *)
Class Tokenizer := encode : string -> list Z.

Section TokenCounting.
Context `{Tokenizer}.
Local Open Scope res_scope.

(** [count_tokens(text)]. *)
Definition count_tokens (text : pyval) : res Z :=
  if negb (truthy text) then Ok 0
  else match text with
       | PStr s => Ok (Z.of_nat (length (encode s)))
       | _ => Raise TypeError
       end.

(** The loop [for key, value in message.items()] of
    [count_message_tokens]. *)
Fixpoint count_items (items : list (string * pyval)) (num_tokens : Z)
  : res Z :=
  match items with
  | [] => Ok num_tokens
  | (key, value) :: rest =>
      n <- count_tokens value ;;
      let num_tokens := num_tokens + n in
      let num_tokens :=
        if (key =? "name")%string then num_tokens - 1 else num_tokens in
      count_items rest num_tokens
  end.

(** [count_message_tokens(message)]. *)
Definition count_message_tokens (message : pyval) : res Z :=
  match message with
  | PDict items => count_items items 4
  | _ => Raise AttributeError
  end.
End TokenCounting.

End AiHandler.
Import AiHandler.

(* ===================================================================== *)
(** * chat_manager.py: class ChatManager *)
(* ===================================================================== *)

Module ChatMgr.

(** The value stored under a thread key:
    [{"messages": deque, "last_interaction": ..., "chat_id": ...}]. *)
Record chat_data : Type := mk_chat {
  messages : list pyval;
  last_interaction : pyval;
  chat_id : pyval
}.

Definition ChatHistoriesType : Type := list (Z * chat_data).

(** The attributes of a [ChatManager] object. *)
Record ChatManager : Type := mk_manager {
  active_chats : ChatHistoriesType;
  system_prompt : string;
  system_prompt_tokens : Z;
  context_window_tokens : Z;
  chat_history_expiry_seconds : Q
}.

Definition with_active_chats (c : ChatHistoriesType) (self : ChatManager)
  : ChatManager :=
  {| active_chats := c;
     system_prompt := system_prompt self;
     system_prompt_tokens := system_prompt_tokens self;
     context_window_tokens := context_window_tokens self;
     chat_history_expiry_seconds := chat_history_expiry_seconds self |}.

(** The file at [history_file_path]. *)
Inductive file_state : Type :=
| NoFile
| Unreadable
| Corrupt
| Json (v : pyval).

(** ** Methods run on the object: state and exceptions *)

Definition M (A : Type) : Type := ChatManager -> res A * ChatManager.

Definition ret {A : Type} (a : A) : M A := fun self => (Ok a, self).

Definition bind {A B : Type} (m : M A) (k : A -> M B) : M B :=
  fun self =>
    match m self with
    | (Ok a, self') => k a self'
    | (Raise e, self') => (Raise e, self')
    end.

Definition lift {A : Type} (r : res A) : M A := fun self => (r, self).

Definition attr {A : Type} (field : ChatManager -> A) : M A :=
  fun self => (Ok (field self), self).

Definition set_active_chats (c : ChatHistoriesType) : M unit :=
  fun self => (Ok tt, with_active_chats c self).

(** [try: body  except Exception as e: handler]. *)
Definition try_except {A : Type} (body : M A) (handler : exn -> M A) : M A :=
  fun self =>
    match body self with
    | (Ok a, self') => (Ok a, self')
    | (Raise e, self') => handler e self'
    end.

Declare Scope M_scope.
Delimit Scope M_scope with M.
Bind Scope M_scope with M.
Notation "x <- c ;; k" := (bind c (fun x => k))
  (at level 61, c at next level, right associativity) : M_scope.
Notation "c ;; k" := (bind c (fun _ => k))
  (at level 61, right associativity) : M_scope.

(** [for x in l: body]. *)
Fixpoint for_each {A : Type} (l : list A) (body : A -> M unit) : M unit :=
  match l with
  | [] => ret tt
  | x :: l' => (body x ;; for_each l' body)%M
  end.

(** [[x for x in l if p(x)]]. *)
Fixpoint comprehension {A : Type} (p : A -> res bool) (l : list A)
  : res (list A) :=
  match l with
  | [] => Ok []
  | x :: l' =>
      (b <- p x ;;
       rest <- comprehension p l' ;;
       Ok (if b then x :: rest else rest))%res
  end.

(** The dict literal of a stored message. *)
Definition message (role content : string) (telegram_message_id : Z)
  : pyval :=
  PDict [("role", PStr role); ("content", PStr content);
         ("telegram_message_id", PInt telegram_message_id)].

Section Methods.
Context `{Tokenizer}.

(** *** Persistence *)

Definition _serialize_active_chats (self : ChatManager) : pyval :=
  PDict
    (fold_left
       (fun serializable_chats entry =>
          let '(thread_key, data) := entry in
          dict_set String.eqb (py_str_int thread_key)
            (PDict [("messages", PList (messages data));
                    ("last_interaction", last_interaction data);
                    ("chat_id", chat_id data)])
            serializable_chats)
       (active_chats self) []).

(** The body of the [try] of [_deserialize_active_chats]. *)
Definition deserialize_entry (thread_key_str : string) (data : pyval)
  : res (Z * chat_data) :=
  (thread_key_int <- py_int_of_str thread_key_str ;;
   msgs <- py_getitem data "messages" ;;
   messages_deque <- py_iter msgs ;;
   li <- py_getitem data "last_interaction" ;;
   cid <- py_getitem data "chat_id" ;;
   Ok (thread_key_int,
       {| messages := messages_deque;
          last_interaction := li;
          chat_id := cid |}))%res.

(** [except (ValueError, TypeError, KeyError)]. *)
Definition skipped (e : exn) : bool :=
  match e with
  | ValueError | TypeError | KeyError => true
  | _ => false
  end.

Fixpoint deserialize_items (items : list (string * pyval))
    (deserialized_chats : ChatHistoriesType) : res ChatHistoriesType :=
  match items with
  | [] => Ok deserialized_chats
  | (thread_key_str, data) :: rest =>
      match deserialize_entry thread_key_str data with
      | Ok (thread_key_int, c) =>
          deserialize_items rest
            (dict_set Z.eqb thread_key_int c deserialized_chats)
      | Raise e =>
          if skipped e then deserialize_items rest deserialized_chats
          else Raise e
      end
  end.

Definition _deserialize_active_chats (data : pyval)
  : res ChatHistoriesType :=
  match data with
  | PDict items => deserialize_items items []
  | _ => Raise AttributeError
  end.

(** [save_chat_histories]: the value returned and the file left behind.
    [writable] says whether [open(path, 'w')] succeeds. *)
Definition save_chat_histories (writable : bool) (disk : file_state)
    (self : ChatManager) : bool * file_state :=
  match active_chats self with
  | [] => (true, disk)
  | _ :: _ =>
      let serializable_data := _serialize_active_chats self in
      if writable then (true, Json serializable_data)
      else (false, disk)
  end.

(** [now - data["last_interaction"] > self.chat_history_expiry_seconds] *)
Definition is_expired (now expiry : Q) (entry : Z * chat_data) : res bool :=
  (li <- py_number (last_interaction (snd entry)) ;;
   Ok (Qgtb (now - li) expiry))%res.

Definition cleanup_expired_chats (now : Q) : M pyval :=
  (chats <- attr active_chats ;;
   expiry <- attr chat_history_expiry_seconds ;;
   expired <- lift (comprehension (is_expired now expiry) chats) ;;
   let expired_keys := map fst expired in
   for_each expired_keys
     (fun key =>
        chats <- attr active_chats ;;
        set_active_chats (dict_del Z.eqb key chats)) ;;
   ret PNone)%M.

(** [json.load] on the opened file. *)
Definition json_load (disk : file_state) : res pyval :=
  match disk with
  | Json v => Ok v
  | Corrupt => Raise JSONDecodeError
  | Unreadable | NoFile => Raise IOError
  end.

Definition load_chat_histories (now : Q) (disk : file_state) : M bool :=
  match disk with
  | NoFile => (set_active_chats [] ;; ret true)%M
  | _ =>
      try_except
        (loaded_data <- lift (json_load disk) ;;
         chats <- lift (_deserialize_active_chats loaded_data) ;;
         set_active_chats chats ;;
         cleanup_expired_chats now ;;
         ret true)%M
        (fun e => set_active_chats [] ;; ret false)%M
  end.

(** *** Reply lookup *)

(** [for msg_in_history in chat_data["messages"]] with its [return]. *)
Fixpoint reply_in_messages (msgs : list pyval)
    (replied_to_telegram_message_id : Z) : res bool :=
  match msgs with
  | [] => Ok false
  | msg_in_history :: rest =>
      (v <- py_get msg_in_history "telegram_message_id" ;;
       if py_eq_int v replied_to_telegram_message_id then Ok true
       else reply_in_messages rest replied_to_telegram_message_id)%res
  end.

(** [for thread_key, chat_data in self.active_chats.items()]. *)
Fixpoint reply_in_chats (chats : ChatHistoriesType)
    (replied_to_telegram_message_id in_chat_id : Z) : res (option Z) :=
  match chats with
  | [] => Ok None
  | (thread_key, data) :: rest =>
      if py_eq_int (chat_id data) in_chat_id then
        (found <- reply_in_messages (messages data)
                    replied_to_telegram_message_id ;;
         if found then Ok (Some thread_key)
         else reply_in_chats rest replied_to_telegram_message_id
                in_chat_id)%res
      else reply_in_chats rest replied_to_telegram_message_id in_chat_id
  end.

Definition _find_thread_key_for_reply
    (replied_to_telegram_message_id in_chat_id : Z) : M (option Z) :=
  (chats <- attr active_chats ;;
   lift (reply_in_chats chats replied_to_telegram_message_id in_chat_id))%M.

(** *** Threads *)

Definition start_new_chat (initial_user_message_content : string)
    (initial_user_telegram_message_id in_chat_id
       bot_first_reply_telegram_message_id : Z)
    (bot_first_reply_content : string) (now : Q) : M pyval :=
  let history := [] in
  let history :=
    (history ++ [message "user" initial_user_message_content
                   initial_user_telegram_message_id])%list in
  let history :=
    (history ++ [message "assistant" bot_first_reply_content
                   bot_first_reply_telegram_message_id])%list in
  (chats <- attr active_chats ;;
   set_active_chats
     (dict_set Z.eqb initial_user_telegram_message_id
        {| messages := history;
           last_interaction := PFloat now;
           chat_id := PInt in_chat_id |}
        chats) ;;
   ret PNone)%M.

Definition add_message_to_chat (thread_key : Z) (role content : string)
    (telegram_message_id : Z) (now : Q) : M bool :=
  (chats <- attr active_chats ;;
   match dict_get Z.eqb thread_key chats with
   | None => ret false
   | Some data =>
       let data' :=
         {| messages :=
              (messages data
               ++ [message role content telegram_message_id])%list;
            last_interaction := PFloat now;
            chat_id := chat_id data |} in
       set_active_chats (dict_set Z.eqb thread_key data' chats) ;;
       ret true
   end)%M.

Fixpoint message_with_id (msgs : list pyval) (telegram_message_id : Z)
  : res (option pyval) :=
  match msgs with
  | [] => Ok None
  | msg :: rest =>
      (v <- py_get msg "telegram_message_id" ;;
       if py_eq_int v telegram_message_id then Ok (Some msg)
       else message_with_id rest telegram_message_id)%res
  end.

Definition get_message_by_telegram_id (thread_key telegram_message_id : Z)
  : M (option pyval) :=
  (chats <- attr active_chats ;;
   match dict_get Z.eqb thread_key chats with
   | None => ret None
   | Some data => lift (message_with_id (messages data) telegram_message_id)
   end)%M.

(** *** The history sent to the model *)

(** [for msg_obj in reversed(original_messages)]: [newest_first] is what
    is left of the reversed deque, [trimmed_messages_for_ai] and
    [current_tokens] are the loop's two variables. *)
Fixpoint trim_loop (window : Z) (newest_first : list pyval)
    (trimmed_messages_for_ai : list pyval) (current_tokens : Z)
  : res (list pyval * Z) :=
  match newest_first with
  | [] => Ok (trimmed_messages_for_ai, current_tokens)
  | msg_obj :: older =>
      (role <- py_getitem msg_obj "role" ;;
       content <- py_getitem msg_obj "content" ;;
       let ai_message_format :=
         PDict [("role", role); ("content", content)] in
       msg_tokens <- count_message_tokens ai_message_format ;;
       if current_tokens + msg_tokens <=? window
       then trim_loop window older
              (ai_message_format :: trimmed_messages_for_ai)
              (current_tokens + msg_tokens)
       else Ok (trimmed_messages_for_ai, current_tokens))%res
  end.

Definition get_history_for_ai (thread_key : Z) : M (option (list pyval)) :=
  (chats <- attr active_chats ;;
   match dict_get Z.eqb thread_key chats with
   | None => ret None
   | Some data =>
       let original_messages := messages data in
       current_tokens <- attr system_prompt_tokens ;;
       window <- attr context_window_tokens ;;
       out <- lift (trim_loop window (rev original_messages) []
                      current_tokens) ;;
       ret (Some (fst out))
   end)%M.

End Methods.

(** [ChatManager.__init__], run at time [now] on the history file [disk].
    [config] is the pair (context_window_tokens, chat_history_expiry_days)
    of the loaded configuration, absent when it failed to load. *)
Definition init `{Tokenizer} (prompt : string) (config : option (Z * Q))
    (now : Q) (disk : file_state) : res ChatManager :=
  (tokens <- count_tokens (PStr prompt) ;;
   let self :=
     {| active_chats := [];
        system_prompt := prompt;
        system_prompt_tokens := tokens;
        context_window_tokens :=
          match config with Some (w, _) => w | None => 4000 end;
        chat_history_expiry_seconds :=
          match config with
          | Some (_, days) => (days * 24 * 60 * 60)%Q
          | None => inject_Z (3 * 24 * 60 * 60)
          end |} in
   let '(loaded, self) := load_chat_histories now disk self in
   _ <- loaded ;;
   Ok self)%res.

End ChatMgr.
Import ChatMgr.

(* ===================================================================== *)
(** * config_loader.py: the known users *)
(* ===================================================================== *)

Module ConfigLoader.

(** [_known_users_data : Dict[int, Dict[str, Any]]]. *)
Definition known_users : Type := list (Z * list (string * pyval)).

(** [_known_users_data[user_id][key] = value]; the entry of [user_id]
    exists whenever the function below runs this. *)
Definition set_field (user_id : Z) (key : string) (value : pyval)
    (data : known_users) : known_users :=
  match dict_get Z.eqb user_id data with
  | Some info =>
      dict_set Z.eqb user_id (dict_set String.eqb key value info) data
  | None => data
  end.

(** [update_user_in_memory(user_id, description, name)] on the global
    [_known_users_data]; [timestamp] is the [time.strftime] string. *)
Definition update_user_in_memory (timestamp : string) (user_id : Z)
    (description name : option string) (_known_users_data : known_users)
  : bool * known_users :=
  let data :=
    if dict_mem Z.eqb user_id _known_users_data then _known_users_data
    else dict_set Z.eqb user_id [] _known_users_data in
  let updated := false in
  let '(updated, data) :=
    match description with
    | Some d => (true, set_field user_id "description" (PStr d) data)
    | None => (updated, data)
    end in
  let '(updated, data) :=
    match name with
    | Some n => (true, set_field user_id "name" (PStr n) data)
    | None => (updated, data)
    end in
  let data :=
    if updated
    then set_field user_id "last_updated_by_ai" (PStr timestamp) data
    else data in
  (updated, data).

End ConfigLoader.
Import ConfigLoader.

(* ===================================================================== *)
(** * ai_handler.py: the messages of a request *)
(* ===================================================================== *)

Module AiRequest.

(** A message of [messages_history : List[Dict[str, str]]]. *)
Definition str_dict : Type := list (string * string).

(** [msg[k]]. *)
Definition getitem (msg : str_dict) (k : string) : res string :=
  match dict_get String.eqb k msg with
  | Some v => Ok v
  | None => Raise KeyError
  end.

(** The newline and the double quote of the string literals. *)
Definition nl : string := String (ascii_of_nat 10) EmptyString.
Definition dq : string := String (ascii_of_nat 34) EmptyString.

(** [full_system_prompt], from the base prompt and the text
    [get_known_user_info_for_prompt()] returns. *)
Definition full_system_prompt
    (base_system_prompt known_users_prompt_section : string) : string :=
  (base_system_prompt
   ++ (nl ++ nl ++ "<known_users>" ++ known_users_prompt_section ++ nl
       ++ "</known_users>")
   ++ (nl ++ nl ++ "When a user messages, their ID might be prepended to their message like '[User ID: 12345]'. Use this to identify them.")
   ++ (nl ++ "You can use tools to update user profiles.")
   ++ (nl ++ nl ++ "When a user messages, their ID might be prepended. If they are replying to a specific previous message, that context will also be provided."))%string.

(** [max_reply_context_len = 150  # Characters] *)
Definition max_reply_context_len : nat := 150.

(** The conditional expression that cuts the replied-to content; [len]
    and the slice count characters, as [String.length] and [substring] do
    on the texts of the model. *)
Definition truncated_reply_to_content (reply_to_message_content : string)
  : string :=
  if (max_reply_context_len <? String.length reply_to_message_content)%nat
  then (substring 0 max_reply_context_len reply_to_message_content
        ++ "...")%string
  else reply_to_message_content.

(** [f"[User ID: {uid}]" if uid else "[User]"]. *)
Definition user_prefix (user_id_for_current_message : option Z) : string :=
  match user_id_for_current_message with
  | Some uid =>
      if uid =? 0 then "[User]"
      else ("[User ID: " ++ py_str_int uid ++ "]")%string
  | None => "[User]"
  end.

(** Truthiness of an [Optional[str]]. *)
Definition given (text : option string) : bool :=
  match text with
  | Some s => negb (s =? "")%string
  | None => false
  end.

Definition text_of (text : option string) : string :=
  match text with
  | Some s => s
  | None => ""
  end.

(** The new content of the last user message. *)
Definition current_msg_content (user_id_for_current_message : option Z)
    (reply_to_message_content reply_to_message_role : option string)
    (content : string) : string :=
  let user_prefix := user_prefix user_id_for_current_message in
  if given reply_to_message_content && given reply_to_message_role then
    let reply_context :=
      ("[Replying to " ++ text_of reply_to_message_role ++ "'s message: "
       ++ dq ++ truncated_reply_to_content (text_of reply_to_message_content)
       ++ dq ++ "]")%string in
    (user_prefix ++ " " ++ reply_context ++ " " ++ content)%string
  else (user_prefix ++ " " ++ content)%string.

(** [for i, msg in enumerate(messages_history)], from index [i] on;
    [len_history] is [len(messages_history)]. *)
Fixpoint processed_messages_for_ai (len_history i : Z)
    (messages_history : list str_dict)
    (user_id_for_current_message : option Z)
    (reply_to_message_content reply_to_message_role : option string)
  : res (list str_dict) :=
  match messages_history with
  | [] => Ok []
  | msg :: rest =>
      (content <- getitem msg "content" ;;
       role <- getitem msg "role" ;;
       let out :=
         if (role =? "user")%string && (i =? len_history - 1)
         then [("role", "user");
               ("content",
                current_msg_content user_id_for_current_message
                  reply_to_message_content reply_to_message_role content)]
         else msg in
       others <- processed_messages_for_ai len_history (i + 1) rest
                   user_id_for_current_message reply_to_message_content
                   reply_to_message_role ;;
       Ok (out :: others))%res
  end.

(** The list [api_messages] that [get_ai_response] sends first. *)
Definition api_messages (messages_history : list str_dict)
    (base_system_prompt known_users_prompt_section : string)
    (user_id_for_current_message : option Z)
    (reply_to_message_content reply_to_message_role : option string)
  : res (list str_dict) :=
  (processed <- processed_messages_for_ai
                  (Z.of_nat (length messages_history)) 0 messages_history
                  user_id_for_current_message reply_to_message_content
                  reply_to_message_role ;;
   Ok ([("role", "system");
        ("content",
         full_system_prompt base_system_prompt known_users_prompt_section)]
       :: processed))%res.

End AiRequest.
Import AiRequest.

(* ===================================================================== *)
(** * config_loader.py: the allowed chats of class Config *)
(* ===================================================================== *)

Module Config.

(** [int(v)] for a value of the configuration file; a float loses its
    fraction. *)
Definition py_int (v : pyval) : res Z :=
  match v with
  | PInt z => Ok z
  | PBool b => Ok (if b then 1 else 0)
  | PFloat q => Ok (if Qle_bool 0 q then Qfloor q else Qceiling q)
  | PStr s => py_int_of_str s
  | _ => Raise TypeError
  end.

(** [[int(cid) for cid in self.allowed_chat_ids]]. *)
Fixpoint int_list (l : list pyval) : res (list Z) :=
  match l with
  | [] => Ok []
  | cid :: rest =>
      (z <- py_int cid ;;
       zs <- int_list rest ;;
       Ok (z :: zs))%res
  end.

(** The attribute [allowed_chat_ids] that [Config.__init__] computes from
    [self.data.get("allowed_chat_ids", [])]; [entry] is the value of the
    key in the file, when the file has the key. *)
Definition allowed_chat_ids (entry : option pyval) : res (list Z) :=
  let value := match entry with Some v => v | None => PList [] end in
  match value with
  | PList l =>
      match int_list l with
      | Ok ids => Ok ids
      | Raise ValueError => Ok []
      | Raise e => Raise e
      end
  | _ => Ok []
  end.

End Config.

(* ===================================================================== *)
(** * bot_core.py: the whitelist and replies to the bot *)
(* ===================================================================== *)

Module BotCore.

(** [is_chat_allowed(chat_id)] for [config.allowed_chat_ids]. *)
Definition is_chat_allowed (allowed_chat_ids : list Z) (chat_id : Z) : bool :=
  match allowed_chat_ids with
  | [] => false
  | _ => existsb (Z.eqb chat_id) allowed_chat_ids
  end.

(** What [handle_reply_to_bot] reads of [update.message]; an absent text
    is the empty text. *)
Record reply_update : Type := mk_update {
  upd_chat_id : Z;
  upd_message_id : Z;
  upd_text : string;
  upd_from_user_id : Z;
  upd_reply_to_message : option Z
}.

(** Where the handler stands when it reaches its first [await]. *)
Inductive prepared : Type :=
| Ignored
| NoHistory (thread_key : Z)
| AskModel (thread_key : Z) (current_full_history_for_ai : list pyval)
    (reply_to_content_for_ai reply_to_role_for_ai : pyval).

(** [v[:50]] in the debug message: a text or a list can be sliced (for a
    dict the exception is a TypeError before Python 3.12). *)
Definition py_slice (v : pyval) : res unit :=
  match v with
  | PStr _ | PList _ => Ok tt
  | _ => Raise TypeError
  end.

Section Handlers.
Context `{Tokenizer}.

(** The content and the role of the message replied to. *)
Definition reply_context (message_being_replied_to_in_history : option pyval)
  : res (pyval * pyval) :=
  match message_being_replied_to_in_history with
  | Some m =>
      if truthy m then
        (reply_to_content_for_ai <- py_get m "content" ;;
         reply_to_role_for_ai <- py_get m "role" ;;
         _ <- py_slice reply_to_content_for_ai ;;
         Ok (reply_to_content_for_ai, reply_to_role_for_ai))%res
      else Ok (PNone, PNone)
  | None => Ok (PNone, PNone)
  end.

(** [handle_reply_to_bot] up to the call of the model (lines 114-180),
    which runs without a break. *)
Definition handle_reply_to_bot_prepare (allowed_chat_ids : list Z)
    (update : reply_update) (now : Q) : M prepared :=
  if negb (is_chat_allowed allowed_chat_ids (upd_chat_id update))
  then ret Ignored
  else if (upd_text update =? "")%string then ret Ignored
  else
    match upd_reply_to_message update with
    | None => ret Ignored
    | Some replied_to_telegram_message_id =>
        (thread <- _find_thread_key_for_reply
                     replied_to_telegram_message_id (upd_chat_id update) ;;
         match thread with
         | None => ret Ignored
         | Some thread_key =>
             found <- get_message_by_telegram_id thread_key
                        replied_to_telegram_message_id ;;
             context <- lift (reply_context found) ;;
             _ <- add_message_to_chat thread_key "user" (upd_text update)
                    (upd_message_id update) now ;;
             history <- get_history_for_ai thread_key ;;
             match history with
             | Some (m :: l) =>
                 ret (AskModel thread_key (m :: l)
                        (fst context) (snd context))
             | _ => ret (NoHistory thread_key)
             end
         end)%M
    end.

(** [handle_reply_to_bot] after the model has answered (lines 192-208):
    the answer that was sent, with the id of the message that carries it,
    is added to the thread; an empty answer is not. *)
Definition handle_reply_to_bot_record (thread_key : Z)
    (ai_response_text : string) (new_bot_reply_message_id : Z) (now : Q)
  : M unit :=
  if (ai_response_text =? "")%string then ret tt
  else
    (_ <- add_message_to_chat thread_key "assistant" ai_response_text
            new_bot_reply_message_id now ;;
     ret tt)%M.
End Handlers.

End BotCore.
Import BotCore.

(* ===================================================================== *)
(** * Well-formed stores and the vocabulary of the specification *)
(* ===================================================================== *)

Module Wf.

Fixpoint distinct (l : list Z) : bool :=
  match l with
  | [] => true
  | x :: r => negb (existsb (Z.eqb x) r) && distinct r
  end.

(** A stored turn: exactly the dict [message role content id]. *)
Definition is_message (v : pyval) : bool :=
  match v with
  | PDict [(k1, PStr _); (k2, PStr _); (k3, PInt _)] =>
      (k1 =? "role")%string && (k2 =? "content")%string
      && (k3 =? "telegram_message_id")%string
  | _ => false
  end.

Definition is_number (v : pyval) : bool :=
  match v with
  | PInt _ | PFloat _ => true
  | _ => false
  end.

Definition is_int (v : pyval) : bool :=
  match v with
  | PInt _ => true
  | _ => false
  end.

(** A thread as the manager builds it: turns, a time, a chat id. *)
Definition valid_chat (c : chat_data) : bool :=
  forallb is_message (messages c)
  && is_number (last_interaction c)
  && is_int (chat_id c).

(** A valid store: a dict (no key twice) of valid threads. *)
Definition valid_store (chats : ChatHistoriesType) : bool :=
  distinct (keys chats) && forallb (fun e => valid_chat (snd e)) chats.

(** The record [_serialize_active_chats] writes for one thread. *)
Definition chat_record (data : chat_data) : pyval :=
  PDict [("messages", PList (messages data));
         ("last_interaction", last_interaction data);
         ("chat_id", chat_id data)].

(** The object a valid file holds for a store. *)
Definition store_records (chats : ChatHistoriesType)
  : list (string * pyval) :=
  map (fun e => (py_str_int (fst e), chat_record (snd e))) chats.

(** "last_activity_time is older than now - expiry". *)
Definition stale (now expiry : Q) (c : chat_data) : bool :=
  match py_number (last_interaction c) with
  | Ok t => negb (Qle_bool (now - expiry) t)
  | Raise _ => false
  end.

(** The same in words: the thread's time lies before [limit]. *)
Definition older_than (c : chat_data) (limit : Q) : Prop :=
  exists t, py_number (last_interaction c) = Ok t /\ (t < limit)%Q.

(** The threads expiry keeps. *)
Definition fresh_chats (now expiry : Q) (chats : ChatHistoriesType)
  : ChatHistoriesType :=
  filter (fun e => negb (stale now expiry (snd e))) chats.

(** [del d[k]] for each key of a list, in turn. *)
Definition del_all (ks : list Z) (chats : ChatHistoriesType)
  : ChatHistoriesType :=
  fold_left (fun d k => dict_del Z.eqb k d) ks chats.

(** The thread belongs to the conversation. *)
Definition in_conversation (c : chat_data) (conversation_id : Z) : Prop :=
  chat_id c = PInt conversation_id.

(** The thread holds a turn with the external message id. *)
Definition contains_turn (c : chat_data) (external_message_id : Z) : Prop :=
  exists role content,
    In (message role content external_message_id) (messages c).

(** What a lookup is asked to find. *)
Definition reply_target (conversation_id external_message_id : Z)
    (c : chat_data) : Prop :=
  in_conversation c conversation_id /\ contains_turn c external_message_id.

Section Estimates.
Context `{Tokenizer}.

(** [count_tokens] on a text. *)
Definition text_tokens (s : string) : Z :=
  if (s =? "")%string then 0 else Z.of_nat (length (encode s)).

(** [count_tokens] on a value, 0 where it raises. *)
Definition value_tokens (v : pyval) : Z :=
  match count_tokens v with
  | Ok n => n
  | Raise _ => 0
  end.

(** The estimates of the values of a message's fields, added up. *)
Definition values_sum (items : list (string * pyval)) : Z :=
  fold_right (fun kv acc => value_tokens (snd kv) + acc) 0 items.

(** The estimate of one message of the model's format. *)
Definition message_tokens (v : pyval) : Z :=
  match count_message_tokens v with
  | Ok n => n
  | Raise _ => 0
  end.

Definition tokens_sum (view : list pyval) : Z :=
  fold_right (fun v acc => message_tokens v + acc) 0 view.

(** The [{"role": ..., "content": ...}] built from a stored turn. *)
Definition ai_format (msg_obj : pyval) : pyval :=
  match py_getitem msg_obj "role", py_getitem msg_obj "content" with
  | Ok role, Ok content => PDict [("role", role); ("content", content)]
  | _, _ => PNone
  end.

(** The estimate the trimming loop charges for a stored turn. *)
Definition turn_tokens (msg_obj : pyval) : Z :=
  message_tokens (ai_format msg_obj).

Definition turns_sum (turns : list pyval) : Z :=
  fold_right (fun m acc => turn_tokens m + acc) 0 turns.
End Estimates.

(** A value [count_tokens] accepts: a text or nothing. *)
Definition is_text (v : pyval) : bool :=
  match v with
  | PStr _ | PNone => true
  | _ => false
  end.

(** The field [key] of the entry of a user, when both exist. *)
Definition field_of (user_id : Z) (key : string) (data : known_users)
  : option pyval :=
  match dict_get Z.eqb user_id data with
  | Some info => dict_get String.eqb key info
  | None => None
  end.

End Wf.
Import Wf.

(* ===================================================================== *)
(** * Concrete data for the examples *)
(* ===================================================================== *)

Module Sample.

(** A stand-in tokenizer: one token per character. *)
Definition char_tokenizer : Tokenizer :=
  fun s => map (fun c => Z.of_nat (nat_of_ascii c)) (list_ascii_of_string s).

Definition manager (chats : ChatHistoriesType) (reserved window : Z)
  : ChatManager :=
  {| active_chats := chats;
     system_prompt := "";
     system_prompt_tokens := reserved;
     context_window_tokens := window;
     chat_history_expiry_seconds := inject_Z (3 * 24 * 60 * 60) |}.

(** A thread of conversation 1, opened by message 100. *)
Definition thread100 : chat_data :=
  {| messages := [message "user" "hi" 100; message "assistant" "hello" 200];
     last_interaction := PFloat (inject_Z 1000);
     chat_id := PInt 1 |}.

(** A thread of conversation 2 holding a turn with the id 200 as well. *)
Definition thread300 : chat_data :=
  {| messages := [message "user" "hey" 300; message "assistant" "yes" 200];
     last_interaction := PFloat (inject_Z 500000);
     chat_id := PInt 2 |}.

Definition store : ChatHistoriesType := [(100, thread100); (300, thread300)].

(** A ledger with one user, last stamped on the first of January. *)
Definition ledger : known_users :=
  [(7, [("description", PStr "likes tea"); ("name", PStr "Ann");
        ("last_updated_by_ai", PStr "2024-01-01T00:00:00Z")])].

End Sample.

(* ===================================================================== *)
(** * Decimal keys: [int(str(k)) = k] *)
(* ===================================================================== *)

Section DecimalKeys.

Lemma parse_digits_printed (d : Decimal.uint) :
  parse_digits false (NilEmpty.string_of_uint d) = Some d.
Proof.
  induction d; simpl; try rewrite IHd; reflexivity.
Qed.

Lemma parse_digits_need (d : Decimal.uint) :
  d <> Decimal.Nil ->
  parse_digits true (NilEmpty.string_of_uint d) = Some d.
Proof.
  destruct d; intros Hd; try congruence;
    simpl; rewrite parse_digits_printed; reflexivity.
Qed.

Lemma printed_head (d : Decimal.uint) :
  d <> Decimal.Nil ->
  exists c s f,
    NilEmpty.string_of_uint d = String c s /\ digit_of c = Some f.
Proof.
  destruct d; intros Hd; try congruence; simpl;
    do 3 eexists; split; reflexivity.
Qed.

(** A digit is neither a blank nor a sign. *)
Lemma py_int_of_str_digit (c : ascii) (s : string) f :
  digit_of c = Some f ->
  py_int_of_str (String c s)
  = match parse_digits true (String c s) with
    | Some u => Ok (Z.of_uint u)
    | None => Raise ValueError
    end.
Proof.
  destruct c as [[] [] [] [] [] [] [] []]; cbn [digit_of];
    intros E; try discriminate E; reflexivity.
Qed.

Lemma py_int_of_str_minus (s : string) :
  py_int_of_str (String "-" s)
  = match parse_digits true s with
    | Some u => Ok (- Z.of_uint u)
    | None => Raise ValueError
    end.
Proof. reflexivity. Qed.

Lemma py_int_of_str_str (z : Z) : py_int_of_str (py_str_int z) = Ok z.
Proof.
  unfold py_str_int. destruct z as [|p|p]; [reflexivity| |];
    cbn [Z.to_int NilZero.string_of_int];
    pose proof (DecimalPos.Unsigned.to_uint_nonnil p) as Hn;
    assert (Hs : NilZero.string_of_uint (Pos.to_uint p)
                 = NilEmpty.string_of_uint (Pos.to_uint p))
      by (unfold NilZero.string_of_uint;
          destruct (Pos.to_uint p); congruence);
    rewrite Hs.
  - destruct (printed_head _ Hn) as (c & s & f & Es & Ec).
    rewrite Es, (py_int_of_str_digit _ _ _ Ec), <- Es.
    rewrite parse_digits_need by assumption.
    unfold Z.of_uint. rewrite DecimalPos.Unsigned.of_to. reflexivity.
  - rewrite py_int_of_str_minus, parse_digits_need by assumption.
    unfold Z.of_uint. rewrite DecimalPos.Unsigned.of_to. reflexivity.
Qed.

Lemma py_str_int_inj (a b : Z) : py_str_int a = py_str_int b -> a = b.
Proof.
  intros E. pose proof (py_int_of_str_str a) as Ha.
  rewrite E, py_int_of_str_str in Ha. congruence.
Qed.

End DecimalKeys.

(* ===================================================================== *)
(** * Dictionaries *)
(* ===================================================================== *)

Local Open Scope list_scope.

Section DictFacts.
Context {K V : Type} (eqb : K -> K -> bool).
Hypothesis eqb_eq : forall a b, eqb a b = true <-> a = b.

Lemma eqb_refl (k : K) : eqb k k = true.
Proof. apply eqb_eq. reflexivity. Qed.

Lemma eqb_neq (a b : K) : a <> b -> eqb a b = false.
Proof.
  intros N. destruct (eqb a b) eqn:E; [|reflexivity].
  apply eqb_eq in E. contradiction.
Qed.

Lemma dict_get_none (k : K) (d : list (K * V)) :
  dict_get eqb k d = None <-> ~ In k (keys d).
Proof.
  induction d as [|[k' v] d IH]; simpl.
  - tauto.
  - destruct (eqb k k') eqn:E.
    + apply eqb_eq in E. subst. split; [discriminate|tauto].
    + rewrite IH. split.
      * intros N [->|I]; [rewrite eqb_refl in E; discriminate|tauto].
      * tauto.
Qed.

Lemma dict_get_some_in (k : K) (v : V) (d : list (K * V)) :
  dict_get eqb k d = Some v -> In (k, v) d.
Proof.
  induction d as [|[k' v'] d IH]; simpl; [discriminate|].
  destruct (eqb k k') eqn:E.
  - apply eqb_eq in E. intros [= ->]. subst. now left.
  - intros G. right. now apply IH.
Qed.

Lemma dict_get_in (k : K) (v : V) (d : list (K * V)) :
  NoDup (keys d) -> In (k, v) d -> dict_get eqb k d = Some v.
Proof.
  induction d as [|[k' v'] d IH]; simpl; [tauto|].
  intros ND [E|I].
  - injection E as -> ->. now rewrite eqb_refl.
  - inversion ND as [|? ? Nk ND']; subst.
    rewrite eqb_neq; [now apply IH|].
    intros ->. apply Nk. apply (in_map fst) in I. exact I.
Qed.

Lemma dict_get_set_eq (k : K) (v : V) (d : list (K * V)) :
  dict_get eqb k (dict_set eqb k v d) = Some v.
Proof.
  induction d as [|[k' v'] d IH]; simpl.
  - now rewrite eqb_refl.
  - destruct (eqb k k') eqn:E; simpl; rewrite E; [reflexivity|exact IH].
Qed.

Lemma dict_get_set_neq (k k' : K) (v : V) (d : list (K * V)) :
  k' <> k -> dict_get eqb k' (dict_set eqb k v d) = dict_get eqb k' d.
Proof.
  intros N. induction d as [|[k0 v0] d IH]; simpl.
  - now rewrite eqb_neq.
  - destruct (eqb k k0) eqn:E; simpl.
    + apply eqb_eq in E. subst. now rewrite (eqb_neq k' k0).
    + now rewrite IH.
Qed.

Lemma dict_set_fresh (k : K) (v : V) (d : list (K * V)) :
  ~ In k (keys d) -> dict_set eqb k v d = d ++ [(k, v)].
Proof.
  induction d as [|[k' v'] d IH]; simpl; [reflexivity|].
  intros N. rewrite eqb_neq by (intros ->; tauto).
  rewrite IH by tauto. reflexivity.
Qed.

Lemma keys_dict_set_present (k : K) (v : V) (d : list (K * V)) :
  In k (keys d) -> keys (dict_set eqb k v d) = keys d.
Proof.
  induction d as [|[k' v'] d IH]; simpl; [tauto|].
  intros I. destruct (eqb k k') eqn:E; simpl; [reflexivity|].
  f_equal. apply IH. destruct I as [->|I]; [|exact I].
  rewrite eqb_refl in E. discriminate.
Qed.

Lemma dict_del_absent (k : K) (d : list (K * V)) :
  ~ In k (keys d) -> dict_del eqb k d = d.
Proof.
  induction d as [|[k' v'] d IH]; simpl; [reflexivity|].
  intros N. rewrite eqb_neq by (intros ->; tauto).
  rewrite IH by tauto. reflexivity.
Qed.

Lemma keys_filter_incl (p : K * V -> bool) (d : list (K * V)) (k : K) :
  In k (keys (filter p d)) -> In k (keys d).
Proof.
  unfold keys. rewrite !in_map_iff.
  intros (e & E & I). apply filter_In in I. exists e. tauto.
Qed.
End DictFacts.

Lemma distinct_NoDup (l : list Z) : distinct l = true <-> NoDup l.
Proof.
  induction l as [|x l IH]; simpl.
  - split; [constructor|reflexivity].
  - rewrite andb_true_iff, negb_true_iff, IH. split.
    + intros [E ND]. constructor; [|exact ND].
      intros I. assert (existsb (Z.eqb x) l = true) as C.
      { apply existsb_exists. exists x. split; [exact I|apply Z.eqb_refl]. }
      congruence.
    + intros ND. inversion ND as [|? ? N ND']; subst. split; [|exact ND'].
      destruct (existsb (Z.eqb x) l) eqn:E; [|reflexivity].
      apply existsb_exists in E. destruct E as (y & I & E).
      apply Z.eqb_eq in E. subst. contradiction.
Qed.

(** ** What deleting the keys of a selection leaves *)

Lemma del_all_keep (ks : list Z) (k : Z) (c : chat_data)
    (d : ChatHistoriesType) :
  ~ In k ks -> del_all ks ((k, c) :: d) = (k, c) :: del_all ks d.
Proof.
  revert d. induction ks as [|k0 ks IH]; intros d N; [reflexivity|].
  simpl in N. unfold del_all. simpl.
  destruct (Z.eqb_spec k0 k) as [->|Ne]; [tauto|].
  apply IH. tauto.
Qed.

Lemma del_all_filter (p : Z * chat_data -> bool) (d : ChatHistoriesType) :
  NoDup (keys d) ->
  del_all (keys (filter p d)) d = filter (fun e => negb (p e)) d.
Proof.
  induction d as [|[k c] d IH]; intros ND; [reflexivity|].
  inversion ND as [|? ? Nk ND']; subst. simpl.
  destruct (p (k, c)) eqn:E; simpl.
  - unfold del_all. simpl. rewrite Z.eqb_refl. now apply IH.
  - rewrite del_all_keep; [now rewrite IH|].
    intros I. apply Nk. eapply keys_filter_incl. exact I.
Qed.

(* ===================================================================== *)
(** * Running methods *)
(* ===================================================================== *)

Lemma with_active_chats_same (self : ChatManager) :
  with_active_chats (active_chats self) self = self.
Proof. destruct self; reflexivity. Qed.

Lemma with_active_chats_twice (a b : ChatHistoriesType) (self : ChatManager) :
  with_active_chats a (with_active_chats b self) = with_active_chats a self.
Proof. reflexivity. Qed.

Lemma comprehension_filter {A : Type} (p : A -> res bool) (q : A -> bool)
    (l : list A) :
  (forall x, In x l -> p x = Ok (q x)) ->
  comprehension p l = Ok (filter q l).
Proof.
  induction l as [|x l IH]; intros Hp; [reflexivity|].
  simpl. rewrite (Hp x) by now left. simpl.
  rewrite IH by (intros y I; apply Hp; now right). reflexivity.
Qed.

(* ===================================================================== *)
(** * Expiry *)
(* ===================================================================== *)

Lemma stale_older_than (now expiry : Q) (c : chat_data) :
  stale now expiry c = true <-> older_than c (now - expiry).
Proof.
  unfold stale, older_than.
  destruct (py_number (last_interaction c)) as [t|e].
  - rewrite negb_true_iff. split.
    + intros E. exists t. split; [reflexivity|].
      apply Qnot_le_lt. intros L. apply Qle_bool_iff in L. congruence.
    + intros (t' & [= <-] & L).
      destruct (Qle_bool (now - expiry) t) eqn:E; [|reflexivity].
      apply Qle_bool_iff in E. lra.
  - split; [discriminate|]. intros (t & E & _). discriminate.
Qed.

(** The test the code writes, [now - t > expiry], is the test of the
    specification, [t < now - expiry]. *)
Lemma is_expired_stale (now expiry : Q) (e : Z * chat_data) :
  is_number (last_interaction (snd e)) = true ->
  is_expired now expiry e = Ok (stale now expiry (snd e)).
Proof.
  unfold is_expired, stale. intros N.
  destruct (last_interaction (snd e)) as [| | z | q | | |];
    try discriminate N; simpl; f_equal; unfold Qgtb; f_equal;
    match goal with
    | |- Qle_bool ?a ?b = Qle_bool ?c ?d =>
        destruct (Qle_bool a b) eqn:E1; destruct (Qle_bool c d) eqn:E2;
        try reflexivity;
        [ apply Qle_bool_iff in E1;
          assert (c <= d)%Q as L by lra;
          apply Qle_bool_iff in L; congruence
        | apply Qle_bool_iff in E2;
          assert (a <= b)%Q as L by lra;
          apply Qle_bool_iff in L; congruence ]
    end.
Qed.

Lemma for_each_del (ks : list Z) (self : ChatManager) :
  for_each ks
    (fun key =>
       (chats <- attr active_chats ;;
        set_active_chats (dict_del Z.eqb key chats))%M) self
  = (Ok tt, with_active_chats (del_all ks (active_chats self)) self).
Proof.
  revert self. induction ks as [|k ks IH]; intros self.
  - simpl. unfold ret. now rewrite with_active_chats_same.
  - simpl. unfold bind at 1. unfold bind at 1. unfold attr at 1.
    unfold set_active_chats at 1. rewrite IH. reflexivity.
Qed.

(** Expiry on a dict whose times are numbers. *)
Lemma cleanup_run (now : Q) (self : ChatManager) :
  NoDup (keys (active_chats self)) ->
  (forall e, In e (active_chats self) ->
             is_number (last_interaction (snd e)) = true) ->
  cleanup_expired_chats now self
  = (Ok PNone,
     with_active_chats
       (fresh_chats now (chat_history_expiry_seconds self)
          (active_chats self)) self).
Proof.
  intros ND Num. unfold cleanup_expired_chats.
  unfold bind at 1. unfold attr at 1.
  unfold bind at 1. unfold attr at 1.
  unfold bind at 1. unfold lift.
  rewrite (comprehension_filter _
             (fun e => stale now (chat_history_expiry_seconds self) (snd e)))
    by (intros e I; apply is_expired_stale, Num, I).
  unfold bind. rewrite for_each_del. unfold ret.
  change (map fst ?l) with (keys l).
  rewrite del_all_filter by assumption. reflexivity.
Qed.

Lemma valid_store_inv (chats : ChatHistoriesType) :
  valid_store chats = true ->
  NoDup (keys chats)
  /\ forall e, In e chats -> valid_chat (snd e) = true.
Proof.
  unfold valid_store. rewrite andb_true_iff, distinct_NoDup, forallb_forall.
  tauto.
Qed.

Lemma valid_chat_inv (c : chat_data) :
  valid_chat c = true ->
  (forall m, In m (messages c) -> is_message m = true)
  /\ is_number (last_interaction c) = true
  /\ is_int (chat_id c) = true.
Proof.
  unfold valid_chat. rewrite !andb_true_iff, forallb_forall. tauto.
Qed.

(** C4 (amended).  On every valid store, [cleanup_expired_chats] run at
    time [now] removes exactly the threads whose last activity is older
    than [now - expiry], keeps every other thread as it was and in the
    same order, and returns [None]: the number of removed threads is
    logged, not returned. *)
Theorem cleanup_expired_chats_removes_stale (now : Q) (self : ChatManager) :
  valid_store (active_chats self) = true ->
  let expiry := chat_history_expiry_seconds self in
  exists self',
    cleanup_expired_chats now self = (Ok PNone, self')
    /\ self' = with_active_chats
                 (fresh_chats now expiry (active_chats self)) self
    /\ forall k c,
         In (k, c) (active_chats self')
         <-> In (k, c) (active_chats self)
             /\ ~ older_than c (now - expiry).
Proof.
  intros V expiry. apply valid_store_inv in V. destruct V as [ND VC].
  eexists. split; [|split; [reflexivity|]].
  - apply cleanup_run; [exact ND|].
    intros e I. apply VC, valid_chat_inv in I. tauto.
  - intros k c. simpl. unfold fresh_chats. rewrite filter_In. simpl.
    rewrite negb_true_iff, <- not_true_iff_false, stale_older_than.
    reflexivity.
Qed.

Lemma cleanup_expired_chats_removes_stale_witness :
  valid_store Sample.store = true
  /\ exists self',
       cleanup_expired_chats (inject_Z 600000)
         (Sample.manager Sample.store 0 120) = (Ok PNone, self')
       /\ active_chats self' = [(300, Sample.thread300)].
Proof.
  split; [reflexivity|].
  destruct (cleanup_expired_chats_removes_stale (inject_Z 600000)
              (Sample.manager Sample.store 0 120) eq_refl)
    as (self' & Run & Eq & _).
  exists self'. split; [exact Run|]. rewrite Eq. reflexivity.
Defined.

(** C4, as stated, fails: one thread is removed, and the call returns
    [None], not the count 1. *)
Lemma cleanup_expired_chats_returns_no_count :
  let self := Sample.manager Sample.store 0 120 in
  let run := cleanup_expired_chats (inject_Z 600000) self in
  (length (active_chats self) - length (active_chats (snd run)) = 1)%nat
  /\ fst run = Ok PNone
  /\ fst run <> Ok (PInt 1).
Proof.
  cbv zeta. split; [reflexivity|]. split; [reflexivity|].
  intros E. vm_compute in E. discriminate E.
Qed.

(* ===================================================================== *)
(** * Persistence *)
(* ===================================================================== *)

Lemma keys_app {V : Type} (a b : list (Z * V)) :
  keys (a ++ b) = keys a ++ keys b.
Proof. apply map_app. Qed.

Lemma keys_store_records (chats : ChatHistoriesType) :
  keys (store_records chats) = map py_str_int (keys chats).
Proof. unfold keys, store_records. rewrite !map_map. reflexivity. Qed.

Lemma serialize_fold (chats : ChatHistoriesType)
    (acc : list (string * pyval)) :
  NoDup (keys chats) ->
  (forall k, In k (keys chats) -> ~ In (py_str_int k) (map fst acc)) ->
  fold_left
    (fun serializable_chats entry =>
       let '(thread_key, data) := entry in
       dict_set String.eqb (py_str_int thread_key)
         (PDict [("messages", PList (messages data));
                 ("last_interaction", last_interaction data);
                 ("chat_id", chat_id data)])
         serializable_chats)
    chats acc
  = acc ++ store_records chats.
Proof.
  revert acc. induction chats as [|[k c] chats IH]; intros acc ND Fresh.
  - simpl. now rewrite app_nil_r.
  - inversion ND as [|? ? Nk ND']; subst. simpl.
    rewrite (dict_set_fresh String.eqb String.eqb_eq)
      by (apply Fresh; now left).
    rewrite IH; [now rewrite <- app_assoc| exact ND' |].
    intros k' I. rewrite map_app, in_app_iff. simpl.
    intros [J|[J|[]]].
    + apply (Fresh k'); [now right|exact J].
    + apply py_str_int_inj in J. subst. contradiction.
Qed.

Lemma serialize_records (self : ChatManager) :
  NoDup (keys (active_chats self)) ->
  _serialize_active_chats self = PDict (store_records (active_chats self)).
Proof.
  intros ND. unfold _serialize_active_chats. f_equal.
  now rewrite serialize_fold.
Qed.

Lemma deserialize_entry_record (k : Z) (c : chat_data) :
  deserialize_entry (py_str_int k) (chat_record c) = Ok (k, c).
Proof.
  unfold deserialize_entry. rewrite py_int_of_str_str.
  destruct c. reflexivity.
Qed.

Lemma deserialize_items_records (chats acc : ChatHistoriesType) :
  NoDup (keys chats) ->
  (forall k, In k (keys chats) -> ~ In k (keys acc)) ->
  deserialize_items (store_records chats) acc = Ok (acc ++ chats).
Proof.
  revert acc. induction chats as [|[k c] chats IH]; intros acc ND Fresh.
  - simpl. now rewrite app_nil_r.
  - inversion ND as [|? ? Nk ND']; subst.
    cbn [store_records map deserialize_items fst snd].
    rewrite deserialize_entry_record.
    rewrite (dict_set_fresh Z.eqb Z.eqb_eq) by (apply Fresh; now left).
    fold (store_records chats).
    rewrite IH; [now rewrite <- app_assoc| exact ND' |].
    intros k' I. rewrite keys_app, in_app_iff. simpl.
    intros [J|[J|[]]].
    + apply (Fresh k'); [now right|exact J].
    + subst. contradiction.
Qed.

(** Reading back what was written. *)
Lemma deserialize_serialize (self : ChatManager) :
  NoDup (keys (active_chats self)) ->
  _deserialize_active_chats (_serialize_active_chats self)
  = Ok (active_chats self).
Proof.
  intros ND. rewrite serialize_records by assumption. simpl.
  rewrite deserialize_items_records; [reflexivity|exact ND|].
  intros k _ [].
Qed.

(** Loading a file whose records deserialize to [chats]. *)
Lemma load_run (now : Q) (v : pyval) (chats : ChatHistoriesType)
    (self : ChatManager) :
  _deserialize_active_chats v = Ok chats ->
  NoDup (keys chats) ->
  (forall e, In e chats -> is_number (last_interaction (snd e)) = true) ->
  load_chat_histories now (Json v) self
  = (Ok true,
     with_active_chats
       (fresh_chats now (chat_history_expiry_seconds self) chats) self).
Proof.
  intros D ND Num. unfold load_chat_histories, try_except.
  unfold bind at 1. unfold lift at 1. cbn [json_load].
  unfold bind at 1. unfold lift at 1. rewrite D.
  unfold bind at 1. unfold set_active_chats at 1.
  unfold bind at 1.
  rewrite cleanup_run by assumption. reflexivity.
Qed.

Lemma fresh_chats_all (now expiry : Q) (chats : ChatHistoriesType) :
  (forall e, In e chats -> stale now expiry (snd e) = false) ->
  fresh_chats now expiry chats = chats.
Proof.
  intros F. unfold fresh_chats. induction chats as [|e chats IH];
    [reflexivity|].
  simpl. rewrite (F e) by now left. simpl. f_equal.
  apply IH. intros e' I. apply F. now right.
Qed.

Lemma valid_store_numbers (chats : ChatHistoriesType) :
  valid_store chats = true ->
  forall e, In e chats -> is_number (last_interaction (snd e)) = true.
Proof.
  intros V e I. apply valid_store_inv in V. destruct V as [_ VC].
  apply VC, valid_chat_inv in I. tauto.
Qed.

(** C1 (amended).  Saving a valid, non-empty store to a writable file and
    loading the file at time [now] gives back the threads of the store
    that are not expired at [now], each one identical to the saved thread
    (same key, same turns in the same order, same conversation id, the
    very same time) and in the same order; when no thread of the store is
    expired at [now], the loaded store is the saved store. *)
Theorem save_then_load (now : Q) (disk : file_state)
    (self restarted : ChatManager) :
  valid_store (active_chats self) = true ->
  active_chats self <> [] ->
  let expiry := chat_history_expiry_seconds restarted in
  let saved := save_chat_histories true disk self in
  let loaded := load_chat_histories now (snd saved) restarted in
  fst saved = true
  /\ loaded
     = (Ok true,
        with_active_chats (fresh_chats now expiry (active_chats self))
          restarted)
  /\ ((forall e, In e (active_chats self) ->
                 stale now expiry (snd e) = false) ->
      active_chats (snd loaded) = active_chats self).
Proof.
  intros V NE expiry saved loaded.
  assert (ND : NoDup (keys (active_chats self)))
    by (apply valid_store_inv in V; tauto).
  assert (S : saved = (true, Json (_serialize_active_chats self))).
  { unfold saved, save_chat_histories.
    destruct (active_chats self); [contradiction|reflexivity]. }
  assert (L : loaded
              = (Ok true,
                 with_active_chats
                   (fresh_chats now expiry (active_chats self)) restarted)).
  { unfold loaded. rewrite S. cbn [snd].
    apply load_run;
      [now apply deserialize_serialize | exact ND
      | now apply valid_store_numbers]. }
  split; [now rewrite S|]. split; [exact L|].
  intros F. rewrite L. cbn [snd active_chats with_active_chats].
  now apply fresh_chats_all.
Qed.

Lemma save_then_load_witness :
  let self := Sample.manager Sample.store 0 120 in
  let restarted := Sample.manager [] 0 120 in
  let saved := save_chat_histories true NoFile self in
  valid_store (active_chats self) = true
  /\ active_chats self <> []
  /\ active_chats
       (snd (load_chat_histories (inject_Z 2000) (snd saved) restarted))
     = Sample.store.
Proof.
  cbv zeta. split; [reflexivity|]. split; [discriminate|].
  apply (save_then_load (inject_Z 2000) NoFile
           (Sample.manager Sample.store 0 120) (Sample.manager [] 0 120)
           eq_refl);
    [discriminate|].
  intros e [<-|[<-|[]]]; reflexivity.
Defined.

(** C1, as stated, fails twice.  A store is valid whatever the age of its
    threads, and the thread that has expired when the file is loaded does
    not come back.  And the empty store is valid: saving it writes nothing,
    so the load that follows returns the thread of the file that was
    there before. *)
Lemma save_then_load_not_identity :
  let self := Sample.manager Sample.store 0 120 in
  let restarted := Sample.manager [] 0 120 in
  let saved := save_chat_histories true NoFile self in
  let loaded := load_chat_histories (inject_Z 600000) (snd saved) restarted in
  let old := Json (PDict (store_records [(300, Sample.thread300)])) in
  let saved_empty := save_chat_histories true old restarted in
  let loaded_empty :=
    load_chat_histories (inject_Z 2000) (snd saved_empty) restarted in
  (valid_store (active_chats self) = true
   /\ fst saved = true
   /\ fst loaded = Ok true
   /\ active_chats (snd loaded) = [(300, Sample.thread300)]
   /\ active_chats (snd loaded) <> active_chats self)
  /\ (valid_store (active_chats restarted) = true
      /\ saved_empty = (true, old)
      /\ fst loaded_empty = Ok true
      /\ active_chats (snd loaded_empty) = [(300, Sample.thread300)]
      /\ active_chats (snd loaded_empty) <> active_chats restarted).
Proof.
  cbv zeta. split.
  - repeat (split; [reflexivity|]).
    intros E. vm_compute in E. discriminate E.
  - repeat (split; [reflexivity|]).
    intros E. vm_compute in E. discriminate E.
Qed.

(** Saving the empty store leaves the file alone, so a load returns the
    threads of whatever file was there before. *)
Lemma save_empty_keeps_file (writable : bool) (disk : file_state)
    (self : ChatManager) :
  active_chats self = [] ->
  save_chat_histories writable disk self = (true, disk).
Proof. intros E. unfold save_chat_histories. now rewrite E. Qed.

(** ** Records that fail to deserialize *)

Lemma py_int_of_str_raises (s : string) (e : exn) :
  py_int_of_str s = Raise e -> e = ValueError.
Proof.
  unfold py_int_of_str.
  destruct (match skip_space s with
            | String "-"%char r => (true, r)
            | String "+"%char r => (false, r)
            | _ => (false, skip_space s)
            end) as [neg ds].
  destruct (parse_digits true ds); congruence.
Qed.

Lemma py_getitem_raises (v : pyval) (k : string) (e : exn) :
  py_getitem v k = Raise e -> e = KeyError \/ e = TypeError.
Proof.
  destruct v; simpl; try (intros [= <-]; now right).
  destruct (dict_get String.eqb k d); [discriminate|].
  intros [= <-]. now left.
Qed.

Lemma py_iter_raises (v : pyval) (e : exn) :
  py_iter v = Raise e -> e = TypeError.
Proof. destruct v; simpl; congruence. Qed.

(** Whatever the body of the [try] raises, the [except] clause takes. *)
Lemma deserialize_entry_raises (key : string) (value : pyval) (e : exn) :
  deserialize_entry key value = Raise e -> skipped e = true.
Proof.
  unfold deserialize_entry.
  destruct (py_int_of_str key) as [k|e1] eqn:E1; simpl.
  2:{ intros [= <-]. apply py_int_of_str_raises in E1. now subst. }
  destruct (py_getitem value "messages") as [msgs|e2] eqn:E2; simpl.
  2:{ intros [= <-]. apply py_getitem_raises in E2.
      destruct E2; now subst. }
  destruct (py_iter msgs) as [dq|e3] eqn:E3; simpl.
  2:{ intros [= <-]. apply py_iter_raises in E3. now subst. }
  destruct (py_getitem value "last_interaction") as [li|e4] eqn:E4; simpl.
  2:{ intros [= <-]. apply py_getitem_raises in E4.
      destruct E4; now subst. }
  destruct (py_getitem value "chat_id") as [cid|e5] eqn:E5; simpl.
  2:{ intros [= <-]. apply py_getitem_raises in E5.
      destruct E5; now subst. }
  discriminate.
Qed.


(** Deserializing a JSON object never raises: every exception of a record
    is taken by the [except] clause of that record. *)
Lemma deserialize_items_total (items : list (string * pyval))
    (acc : ChatHistoriesType) :
  exists chats, deserialize_items items acc = Ok chats.
Proof.
  revert acc. induction items as [|[key value] items IH]; intros acc.
  - exists acc. reflexivity.
  - simpl. destruct (deserialize_entry key value) as [[k c]|e] eqn:E;
      [apply IH|].
    rewrite (deserialize_entry_raises _ _ _ E). apply IH.
Qed.

(** The three kinds of bad record the error message of the code is for. *)
Lemma bad_key_raises (key : string) (value : pyval) :
  py_int_of_str key = Raise ValueError ->
  deserialize_entry key value = Raise ValueError.
Proof. intros E. unfold deserialize_entry. now rewrite E. Qed.

Lemma wrong_shape_raises (k : Z) (value : pyval) :
  (forall d, value <> PDict d) ->
  deserialize_entry (py_str_int k) value = Raise TypeError.
Proof.
  intros N. unfold deserialize_entry. rewrite py_int_of_str_str.
  destruct value; try reflexivity. now destruct (N d).
Qed.

Lemma missing_field_raises (k : Z) (d : list (string * pyval)) :
  dict_get String.eqb "messages" d = None ->
  deserialize_entry (py_str_int k) (PDict d) = Raise KeyError.
Proof.
  intros E. unfold deserialize_entry. rewrite py_int_of_str_str.
  simpl. now rewrite E.
Qed.




(* ===================================================================== *)
(** * Threads: appending and starting *)
(* ===================================================================== *)

Lemma dict_get_some_key {V : Type} (k : Z) (v : V) (d : list (Z * V)) :
  dict_get Z.eqb k d = Some v -> In k (keys d).
Proof.
  intros G. apply (dict_get_some_in Z.eqb Z.eqb_eq) in G.
  apply (in_map fst) in G. exact G.
Qed.

(** C7.  On a key that is not in the store [add_message_to_chat] returns
    [False] and the manager is what it was; on a key that is there it
    returns [True], the thread has the new turn after its old ones and the
    time of the call as its last activity, keeps its conversation id and
    its place, and no other thread or attribute changes. *)
Theorem add_message_to_chat_spec (self : ChatManager) (thread_key : Z)
    (role content : string) (telegram_message_id : Z) (now : Q) :
  let run :=
    add_message_to_chat thread_key role content telegram_message_id now self in
  (dict_get Z.eqb thread_key (active_chats self) = None ->
   run = (Ok false, self))
  /\ (forall data,
        dict_get Z.eqb thread_key (active_chats self) = Some data ->
        exists chats',
          run = (Ok true, with_active_chats chats' self)
          /\ dict_get Z.eqb thread_key chats'
             = Some {| messages :=
                         messages data
                         ++ [message role content telegram_message_id];
                       last_interaction := PFloat now;
                       chat_id := chat_id data |}
          /\ (forall k, k <> thread_key ->
                        dict_get Z.eqb k chats'
                        = dict_get Z.eqb k (active_chats self))
          /\ keys chats' = keys (active_chats self)).
Proof.
  intros run. subst run. unfold add_message_to_chat, bind, attr. split.
  - intros G. rewrite G. reflexivity.
  - intros data G. rewrite G. eexists. split; [reflexivity|].
    split; [apply (dict_get_set_eq Z.eqb Z.eqb_eq)|].
    split; [intros k N; now apply (dict_get_set_neq Z.eqb Z.eqb_eq)|].
    apply (keys_dict_set_present Z.eqb Z.eqb_eq).
    eapply dict_get_some_key. exact G.
Qed.

Lemma add_message_to_chat_spec_witness :
  let self := Sample.manager Sample.store 0 120 in
  (dict_get Z.eqb 5 (active_chats self) = None
   /\ add_message_to_chat 5 "user" "lost" 6 (inject_Z 2000) self
      = (Ok false, self))
  /\ (dict_get Z.eqb 100 (active_chats self) = Some Sample.thread100
      /\ exists chats',
           add_message_to_chat 100 "user" "how are you" 101
             (inject_Z 2000) self
           = (Ok true, with_active_chats chats' self)
           /\ dict_get Z.eqb 100 chats'
              = Some {| messages :=
                          [message "user" "hi" 100;
                           message "assistant" "hello" 200;
                           message "user" "how are you" 101];
                        last_interaction := PFloat (inject_Z 2000);
                        chat_id := PInt 1 |}).
Proof.
  cbv zeta. split.
  - split; [reflexivity|].
    apply (add_message_to_chat_spec (Sample.manager Sample.store 0 120)
             5 "user" "lost" 6 (inject_Z 2000)).
    reflexivity.
  - split; [reflexivity|].
    destruct (proj2 (add_message_to_chat_spec
                       (Sample.manager Sample.store 0 120)
                       100 "user" "how are you" 101 (inject_Z 2000))
                Sample.thread100 eq_refl)
      as (chats' & Run & Get & _).
    exists chats'. split; [exact Run|exact Get].
Defined.

(** C3 (amended).  On a key that is already in the store
    [start_new_chat] raises nothing: it returns [None] and puts the new
    two-turn thread in the place of the stored one; the other threads and
    the order of the keys stay. *)
Theorem start_new_chat_replaces (self : ChatManager)
    (initial_user_message_content : string)
    (initial_user_telegram_message_id in_chat_id
       bot_first_reply_telegram_message_id : Z)
    (bot_first_reply_content : string) (now : Q) (old : chat_data) :
  dict_get Z.eqb initial_user_telegram_message_id (active_chats self)
  = Some old ->
  exists chats',
    start_new_chat initial_user_message_content
      initial_user_telegram_message_id in_chat_id
      bot_first_reply_telegram_message_id bot_first_reply_content now self
    = (Ok PNone, with_active_chats chats' self)
    /\ dict_get Z.eqb initial_user_telegram_message_id chats'
       = Some {| messages :=
                   [message "user" initial_user_message_content
                      initial_user_telegram_message_id;
                    message "assistant" bot_first_reply_content
                      bot_first_reply_telegram_message_id];
                 last_interaction := PFloat now;
                 chat_id := PInt in_chat_id |}
    /\ (forall k, k <> initial_user_telegram_message_id ->
                  dict_get Z.eqb k chats'
                  = dict_get Z.eqb k (active_chats self))
    /\ keys chats' = keys (active_chats self).
Proof.
  intros G. unfold start_new_chat, bind, attr, set_active_chats, ret.
  eexists. split; [reflexivity|].
  split; [apply (dict_get_set_eq Z.eqb Z.eqb_eq)|].
  split; [intros k N; now apply (dict_get_set_neq Z.eqb Z.eqb_eq)|].
  apply (keys_dict_set_present Z.eqb Z.eqb_eq).
  eapply dict_get_some_key. exact G.
Qed.

Lemma start_new_chat_replaces_witness :
  let self := Sample.manager Sample.store 0 120 in
  dict_get Z.eqb 100 (active_chats self) = Some Sample.thread100
  /\ exists chats',
       start_new_chat "again" 100 5 101 "ok" (inject_Z 7) self
       = (Ok PNone, with_active_chats chats' self)
       /\ dict_get Z.eqb 100 chats'
          = Some {| messages := [message "user" "again" 100;
                                 message "assistant" "ok" 101];
                    last_interaction := PFloat (inject_Z 7);
                    chat_id := PInt 5 |}.
Proof.
  cbv zeta. split; [reflexivity|].
  destruct (start_new_chat_replaces (Sample.manager Sample.store 0 120)
              "again" 100 5 101 "ok" (inject_Z 7) Sample.thread100 eq_refl)
    as (chats' & Run & Get & _).
  exists chats'. split; [exact Run|exact Get].
Defined.

(** C3, as stated, fails: starting a chat on the key 100 of a store that
    has a thread 100 raises nothing and the stored thread is gone. *)
Lemma start_new_chat_overwrites :
  let self := Sample.manager Sample.store 0 120 in
  let run := start_new_chat "again" 100 5 101 "ok" (inject_Z 7) self in
  dict_get Z.eqb 100 (active_chats self) = Some Sample.thread100
  /\ fst run = Ok PNone
  /\ dict_get Z.eqb 100 (active_chats (snd run)) <> Some Sample.thread100.
Proof.
  cbv zeta. split; [reflexivity|]. split; [reflexivity|].
  intros E. vm_compute in E. discriminate E.
Qed.

(* ===================================================================== *)
(** * Reply lookup *)
(* ===================================================================== *)

Lemma is_message_inv (v : pyval) :
  is_message v = true -> exists role content id, v = message role content id.
Proof.
  unfold is_message.
  destruct v as [| | | | | |d]; try discriminate.
  destruct d as [|[k1 v1] d]; try discriminate.
  destruct v1 as [| | | |role| |]; try discriminate.
  destruct d as [|[k2 v2] d]; try discriminate.
  destruct v2 as [| | | |content| |]; try discriminate.
  destruct d as [|[k3 v3] d]; try discriminate.
  destruct v3 as [| |id| | | |]; try discriminate.
  destruct d; try discriminate.
  rewrite !andb_true_iff, !String.eqb_eq. intros [[-> ->] ->].
  exists role, content, id. reflexivity.
Qed.

Lemma message_inj (r r' c c' : string) (i i' : Z) :
  message r c i = message r' c' i' -> r = r' /\ c = c' /\ i = i'.
Proof. intros [= -> -> ->]. auto. Qed.

Lemma reply_in_messages_spec (msgs : list pyval) (id : Z) :
  (forall m, In m msgs -> is_message m = true) ->
  exists found,
    reply_in_messages msgs id = Ok found
    /\ (found = true <-> exists role content,
                           In (message role content id) msgs).
Proof.
  induction msgs as [|m msgs IH]; intros V.
  - exists false. split; [reflexivity|].
    split; [discriminate|]. intros (? & ? & []).
  - destruct (is_message_inv m (V m (or_introl eq_refl)))
      as (r & c & i & ->).
    destruct IH as (found & Run & Spec);
      [intros m' I; apply V; now right|].
    simpl. destruct (Z.eqb_spec i id) as [->|Ne].
    + exists true. split; [reflexivity|]. split; [|reflexivity].
      intros _. exists r, c. now left.
    + exists found. split; [exact Run|]. rewrite Spec.
      split; intros (r' & c' & I); exists r', c'.
      * now right.
      * destruct I as [E|I]; [|exact I].
        apply message_inj in E. destruct E as (_ & _ & E). contradiction.
Qed.

Lemma in_conversation_eq (c : chat_data) (conversation_id : Z) :
  is_int (chat_id c) = true ->
  py_eq_int (chat_id c) conversation_id = true
  <-> in_conversation c conversation_id.
Proof.
  unfold in_conversation.
  destruct (chat_id c) as [| |z| | | |]; try discriminate. intros _. simpl.
  rewrite Z.eqb_eq. split; [now intros ->|now intros [= ->]].
Qed.

(** What the two nested loops return on valid threads. *)
Lemma reply_in_chats_spec (chats : ChatHistoriesType)
    (id conversation_id : Z) :
  (forall e, In e chats -> valid_chat (snd e) = true) ->
  exists r,
    reply_in_chats chats id conversation_id = Ok r
    /\ match r with
       | Some k =>
           exists before c after,
             chats = before ++ (k, c) :: after
             /\ reply_target conversation_id id c
             /\ forall e, In e before ->
                          ~ reply_target conversation_id id (snd e)
       | None =>
           forall e, In e chats -> ~ reply_target conversation_id id (snd e)
       end.
Proof.
  induction chats as [|[k c] chats IH]; intros V.
  - exists None. split; [reflexivity|]. intros e [].
  - destruct IH as (r & Run & Spec); [intros e I; apply V; now right|].
    destruct (valid_chat_inv c (V (k, c) (or_introl eq_refl)))
      as (Vm & _ & Vi).
    destruct (reply_in_messages_spec (messages c) id Vm)
      as (found & RunM & SpecM).
    assert (Skip : ~ reply_target conversation_id id c ->
                   exists r',
                     Ok r = Ok r'
                     /\ match r' with
                        | Some k' =>
                            exists before c' after,
                              (k, c) :: chats = before ++ (k', c') :: after
                              /\ reply_target conversation_id id c'
                              /\ forall e, In e before ->
                                   ~ reply_target conversation_id id (snd e)
                        | None =>
                            forall e, In e ((k, c) :: chats) ->
                              ~ reply_target conversation_id id (snd e)
                        end).
    { intros N. exists r. split; [reflexivity|]. destruct r as [k'|].
      - destruct Spec as (before & c' & after & -> & T & B).
        exists ((k, c) :: before), c', after. split; [reflexivity|].
        split; [exact T|]. intros e [<-|I]; [exact N|now apply B].
      - intros e [<-|I]; [exact N|now apply Spec]. }
    simpl. destruct (py_eq_int (chat_id c) conversation_id) eqn:E.
    + rewrite RunM. simpl. destruct found.
      * exists (Some k). split; [reflexivity|].
        exists [], c, chats. split; [reflexivity|]. split; [|intros e []].
        split; [now apply in_conversation_eq|]. now apply SpecM.
      * rewrite Run. apply Skip. intros [_ T]. apply SpecM in T.
        discriminate.
    + rewrite Run. apply Skip. intros [T _].
      apply in_conversation_eq in T; [congruence|exact Vi].
Qed.

(** C6.  On a valid store [_find_thread_key_for_reply] changes nothing and
    returns the key of the first thread, in the order of the store, that
    belongs to the given conversation and holds a turn with the given
    message id, or [None] when the conversation has no such thread; a
    thread of another conversation is never returned, whatever ids its
    turns carry. *)
Theorem find_thread_key_for_reply_spec (self : ChatManager)
    (replied_to_telegram_message_id in_chat_id : Z) :
  valid_store (active_chats self) = true ->
  exists r,
    _find_thread_key_for_reply replied_to_telegram_message_id in_chat_id self
    = (Ok r, self)
    /\ match r with
       | Some thread_key =>
           exists before c after,
             active_chats self = before ++ (thread_key, c) :: after
             /\ in_conversation c in_chat_id
             /\ contains_turn c replied_to_telegram_message_id
             /\ forall e, In e before ->
                  ~ reply_target in_chat_id replied_to_telegram_message_id
                      (snd e)
       | None =>
           forall e, In e (active_chats self) ->
             ~ reply_target in_chat_id replied_to_telegram_message_id (snd e)
       end.
Proof.
  intros V. apply valid_store_inv in V. destruct V as [_ VC].
  destruct (reply_in_chats_spec (active_chats self)
              replied_to_telegram_message_id in_chat_id VC)
    as (r & Run & Spec).
  exists r. split.
  - unfold _find_thread_key_for_reply, bind, attr, lift. now rewrite Run.
  - destruct r as [k|]; [|exact Spec].
    destruct Spec as (before & c & after & E & [T1 T2] & B).
    exists before, c, after. auto.
Qed.

(** Two conversations whose threads both hold a turn with the id 200. *)
Lemma find_thread_key_for_reply_spec_witness :
  let self := Sample.manager Sample.store 0 120 in
  valid_store (active_chats self) = true
  /\ (exists r, _find_thread_key_for_reply 200 2 self = (Ok r, self))
  /\ fst (_find_thread_key_for_reply 200 2 self) = Ok (Some 300)
  /\ fst (_find_thread_key_for_reply 200 1 self) = Ok (Some 100).
Proof.
  cbv zeta. split; [reflexivity|]. split.
  - destruct (find_thread_key_for_reply_spec
                (Sample.manager Sample.store 0 120) 200 2 eq_refl)
      as (r & Run & _).
    exists r. exact Run.
  - split; reflexivity.
Defined.

(* ===================================================================== *)
(** * The history sent to the model *)
(* ===================================================================== *)

Section History.
Context `{Tokenizer}.

(** C5.  [get_history_for_ai] is a read: whatever the key and whatever
    it returns, the manager after the call is the manager before it, so
    the stored turns, the time and the conversation id of the thread and
    every other entry are untouched. *)
Theorem get_history_for_ai_frame (self : ChatManager) (thread_key : Z) :
  snd (get_history_for_ai thread_key self) = self
  /\ dict_get Z.eqb thread_key
       (active_chats (snd (get_history_for_ai thread_key self)))
     = dict_get Z.eqb thread_key (active_chats self).
Proof.
  assert (E : snd (get_history_for_ai thread_key self) = self).
  { unfold get_history_for_ai, bind, attr, lift, ret.
    destruct (dict_get Z.eqb thread_key (active_chats self));
      [|reflexivity].
    destruct (trim_loop _ _ _ _); reflexivity. }
  split; [exact E|now rewrite E].
Qed.
Lemma count_tokens_text (s : string) :
  count_tokens (PStr s) = Ok (text_tokens s).
Proof.
  unfold count_tokens, text_tokens, truthy.
  destruct (s =? "")%string; reflexivity.
Qed.

Lemma text_tokens_nonneg (s : string) : 0 <= text_tokens s.
Proof. unfold text_tokens. destruct (s =? "")%string; lia. Qed.

Lemma ai_format_message (r c : string) (i : Z) :
  ai_format (message r c i) = PDict [("role", PStr r); ("content", PStr c)].
Proof. reflexivity. Qed.

Lemma count_turn (r c : string) :
  count_message_tokens (PDict [("role", PStr r); ("content", PStr c)])
  = Ok (4 + text_tokens r + text_tokens c).
Proof.
  cbn [count_message_tokens count_items].
  rewrite !count_tokens_text. reflexivity.
Qed.

Lemma turn_tokens_message (r c : string) (i : Z) :
  turn_tokens (message r c i) = 4 + text_tokens r + text_tokens c.
Proof.
  unfold turn_tokens, message_tokens.
  now rewrite ai_format_message, count_turn.
Qed.

Lemma turn_tokens_pos (m : pyval) :
  is_message m = true -> 4 <= turn_tokens m.
Proof.
  intros V. apply is_message_inv in V. destruct V as (r & c & i & ->).
  rewrite turn_tokens_message.
  pose proof (text_tokens_nonneg r). pose proof (text_tokens_nonneg c).
  lia.
Qed.

(** One round of the loop on a stored turn. *)
Lemma trim_loop_step (window : Z) (m : pyval) (older acc : list pyval)
    (cur : Z) :
  is_message m = true ->
  trim_loop window (m :: older) acc cur
  = if cur + turn_tokens m <=? window
    then trim_loop window older (ai_format m :: acc) (cur + turn_tokens m)
    else Ok (acc, cur).
Proof.
  intros V. apply is_message_inv in V. destruct V as (r & c & i & ->).
  rewrite turn_tokens_message, ai_format_message.
  cbn [trim_loop]. change (py_getitem (message r c i) "role")
    with (Ok (PStr r)).
  change (py_getitem (message r c i) "content") with (Ok (PStr c)).
  cbn [res_bind]. rewrite count_turn. reflexivity.
Qed.

Lemma turns_sum_app (a b : list pyval) :
  turns_sum (a ++ b) = turns_sum a + turns_sum b.
Proof. induction a as [|m a IH]; simpl; [reflexivity|]. lia. Qed.

Lemma turns_sum_rev (l : list pyval) : turns_sum (rev l) = turns_sum l.
Proof.
  induction l as [|m l IH]; simpl; [reflexivity|].
  rewrite turns_sum_app, IH. simpl. lia.
Qed.

Lemma tokens_sum_view (l : list pyval) :
  tokens_sum (map ai_format l) = turns_sum l.
Proof. induction l as [|m l IH]; simpl; [reflexivity|]. now rewrite IH. Qed.

(** The loop takes the longest run of newest turns that fits. *)
Lemma trim_loop_spec (window : Z) (newest_first acc : list pyval)
    (cur : Z) :
  (forall m, In m newest_first -> is_message m = true) ->
  exists taken rest,
    newest_first = taken ++ rest
    /\ trim_loop window newest_first acc cur
       = Ok (rev (map ai_format taken) ++ acc, cur + turns_sum taken)
    /\ (taken <> [] -> cur + turns_sum taken <= window)
    /\ (forall m rest', rest = m :: rest' ->
                        window < cur + turns_sum taken + turn_tokens m).
Proof.
  revert acc cur.
  induction newest_first as [|m l IH]; intros acc cur V.
  - exists [], []. simpl. rewrite Z.add_0_r.
    split; [reflexivity|]. split; [reflexivity|].
    split; [congruence|discriminate].
  - rewrite trim_loop_step by (apply V; now left).
    destruct (Z.leb_spec (cur + turn_tokens m) window) as [Le|Gt].
    + destruct (IH (ai_format m :: acc) (cur + turn_tokens m))
        as (taken & rest & -> & Run & Fit & Stop);
        [intros m' I; apply V; now right|].
      exists (m :: taken), rest. split; [reflexivity|]. split.
      * rewrite Run. simpl. rewrite <- app_assoc. simpl.
        do 2 f_equal. lia.
      * split.
        -- intros _. simpl. destruct taken as [|m' taken].
           ++ simpl. lia.
           ++ assert (m' :: taken <> []) as N by discriminate.
              specialize (Fit N). lia.
        -- intros m' rest' E. specialize (Stop m' rest' E). simpl. lia.
    + exists [], (m :: l). simpl. rewrite Z.add_0_r.
      split; [reflexivity|]. split; [reflexivity|].
      split; [congruence|].
      intros m' rest' [= <- <-]. lia.
Qed.

(** C2.  For a thread of stored turns, a reserve and a budget that are
    not negative, [get_history_for_ai] splits the turns into the older
    ones and the kept ones and returns the kept ones, in the order of
    the store, in the model's format: the reserve plus the estimates of
    the kept turns stays within the budget, the estimates of what is
    returned never exceed the budget, the newest turn left out is the
    first that would exceed it, and three turns of estimate 50 with
    budget 120 and reserve 0 give the last two turns. *)
Theorem get_history_for_ai_bounded (self : ChatManager) (thread_key : Z)
    (data : chat_data) :
  dict_get Z.eqb thread_key (active_chats self) = Some data ->
  forallb is_message (messages data) = true ->
  0 <= system_prompt_tokens self ->
  0 <= context_window_tokens self ->
  let reserved := system_prompt_tokens self in
  let budget := context_window_tokens self in
  exists older kept,
    messages data = older ++ kept
    /\ get_history_for_ai thread_key self
       = (Ok (Some (map ai_format kept)), self)
    /\ (kept <> [] ->
        reserved + tokens_sum (map ai_format kept) <= budget)
    /\ tokens_sum (map ai_format kept) <= budget
    /\ (forall older' m,
          older = older' ++ [m] ->
          budget
          < reserved + tokens_sum (map ai_format kept) + turn_tokens m)
    /\ (forall m1 m2 m3,
          messages data = [m1; m2; m3] ->
          turn_tokens m1 = 50 -> turn_tokens m2 = 50 ->
          turn_tokens m3 = 50 ->
          budget = 120 -> reserved = 0 ->
          kept = [m2; m3]).
Proof.
  intros G V R0 B0 reserved budget.
  rewrite forallb_forall in V.
  destruct (trim_loop_spec budget (rev (messages data)) [] reserved)
    as (taken & rest & Split & Run & Fit & Stop);
    [intros m I; apply V; now apply in_rev|].
  assert (Msgs : messages data = rev rest ++ rev taken).
  { rewrite <- rev_app_distr, <- Split. now rewrite rev_involutive. }
  assert (Sum : tokens_sum (map ai_format (rev taken)) = turns_sum taken)
    by (now rewrite tokens_sum_view, turns_sum_rev).
  assert (Fit' : rev taken <> [] ->
                 reserved + tokens_sum (map ai_format (rev taken))
                 <= budget).
  { intros N. rewrite Sum. apply Fit. intros ->. now apply N. }
  assert (Stop' : forall older' m,
             rev rest = older' ++ [m] ->
             budget < reserved + tokens_sum (map ai_format (rev taken))
                      + turn_tokens m).
  { intros older' m E. rewrite Sum. apply (Stop m (rev older')).
    rewrite <- (rev_involutive rest), E, rev_app_distr. reflexivity. }
  exists (rev rest), (rev taken). split; [exact Msgs|]. split.
  { unfold get_history_for_ai, bind, attr, lift, ret. rewrite G.
    fold reserved. fold budget. rewrite Run. cbn [fst].
    now rewrite app_nil_r, map_rev. }
  split; [exact Fit'|]. split.
  { destruct (rev taken) as [|m l] eqn:E; [simpl; lia|].
    assert (m :: l <> []) as N by discriminate.
    specialize (Fit' N). subst reserved. lia. }
  split; [exact Stop'|].
  intros m1 m2 m3 E T1 T2 T3 Eb Er.
  rewrite E in Msgs. rewrite Eb, Er in *.
  destruct (rev rest) as [|o1 [|o2 [|o3 [|o4 older]]]];
    simpl in Msgs.
  - rewrite <- Msgs in Fit'. simpl in Fit'.
    assert ([m1; m2; m3] <> []) as N by discriminate.
    specialize (Fit' N). unfold message_tokens in Fit'.
    unfold turn_tokens, message_tokens in T1, T2, T3. lia.
  - injection Msgs as <- Msgs. symmetry. exact Msgs.
  - injection Msgs as <- <- Msgs. rewrite <- Msgs in Stop'.
    specialize (Stop' [m1] m2 eq_refl). simpl in Stop'.
    unfold turn_tokens in T3. lia.
  - injection Msgs as <- <- <- Msgs. rewrite <- Msgs in Stop'.
    specialize (Stop' [m1; m2] m3 eq_refl). simpl in Stop'. lia.
  - discriminate Msgs.
Qed.
End History.

(** Three turns of 50 tokens each for the one-token-per-character
    tokenizer: 4, the role and the content. *)
Lemma get_history_for_ai_bounded_witness :
  let turn1 := message "user" "Tell me about the tides of the North Sea. " 1 in
  let turn2 := message "assistant" "They follow the moon, twice each day." 2 in
  let turn3 := message "user" "And what about the spring tides in April?!" 3 in
  let data := {| messages := [turn1; turn2; turn3];
                 last_interaction := PFloat (inject_Z 1000);
                 chat_id := PInt 1 |} in
  let self := Sample.manager [(1, data)] 0 120 in
  map (turn_tokens (H := Sample.char_tokenizer)) (messages data)
  = [50; 50; 50]
  /\ get_history_for_ai (H := Sample.char_tokenizer) 1 self
     = (Ok (Some [ai_format turn2; ai_format turn3]), self).
Proof.
  cbv zeta. split; [reflexivity|].
  match goal with
  | |- get_history_for_ai 1 (Sample.manager [(1, ?data)] 0 120) = _ =>
      destruct (get_history_for_ai_bounded (H := Sample.char_tokenizer)
                  (Sample.manager [(1, data)] 0 120) 1 data
                  eq_refl eq_refl ltac:(simpl; lia) ltac:(simpl; lia))
        as (older & kept & _ & Run & _ & _ & _ & Last)
  end.
  rewrite (Last _ _ _ eq_refl eq_refl eq_refl eq_refl eq_refl eq_refl)
    in Run.
  exact Run.
Defined.

(* ===================================================================== *)
(** * Token estimates *)
(* ===================================================================== *)

Section Estimate.
Context `{Tokenizer}.

Lemma count_tokens_is_text (text : pyval) :
  is_text text = true ->
  count_tokens text = Ok (value_tokens text) /\ 0 <= value_tokens text.
Proof.
  destruct text as [| | | |s| |]; try discriminate; intros _.
  - split; [reflexivity|]. unfold value_tokens. simpl. lia.
  - unfold value_tokens. rewrite count_tokens_text.
    split; [reflexivity|apply text_tokens_nonneg].
Qed.

(** The loop adds every value and takes 1 off at the key "name". *)
Lemma count_items_sum (items : list (string * pyval)) (num_tokens : Z) :
  forallb (fun kv => is_text (snd kv)) items = true ->
  NoDup (keys items) ->
  count_items items num_tokens
  = Ok (num_tokens + values_sum items
        - (if dict_mem String.eqb "name" items then 1 else 0)).
Proof.
  revert num_tokens.
  induction items as [|[key value] items IH]; intros n T ND.
  - simpl. f_equal. lia.
  - simpl in T. apply andb_true_iff in T. destruct T as [Tv T].
    inversion ND as [|? ? Nk ND']; subst.
    cbn [count_items]. rewrite (proj1 (count_tokens_is_text value Tv)).
    cbn [res_bind]. rewrite IH by assumption.
    unfold dict_mem. cbn [dict_get values_sum fold_right snd].
    rewrite (String.eqb_sym "name" key).
    destruct (String.eqb_spec key "name") as [->|Ne].
    + assert (dict_get String.eqb "name" items = None) as ->
        by (apply (dict_get_none String.eqb String.eqb_eq); exact Nk).
      f_equal. fold (values_sum items). ring.
    + fold (values_sum items). f_equal. ring.
Qed.

(** C8 (amended).  [count_message_tokens] returns 4, plus the estimate
    of the value of every field of the message (the role and the content
    of a turn, and the name when there is one), minus 1 when the message
    has a name field; [count_tokens] returns 0 on an empty and on an
    absent text, and an integer that is not negative on every text. *)
Theorem count_message_tokens_sum (items : list (string * pyval)) :
  forallb (fun kv => is_text (snd kv)) items = true ->
  NoDup (keys items) ->
  count_message_tokens (PDict items)
  = Ok (4 + values_sum items
        - (if dict_mem String.eqb "name" items then 1 else 0))
  /\ (forall role content : string,
        count_message_tokens
          (PDict [("role", PStr role); ("content", PStr content)])
        = Ok (4 + text_tokens role + text_tokens content))
  /\ count_tokens PNone = Ok 0
  /\ count_tokens (PStr "") = Ok 0
  /\ (forall text, is_text text = true ->
                   exists n, count_tokens text = Ok n /\ 0 <= n).
Proof.
  intros T ND. split; [now apply count_items_sum|].
  split; [apply count_turn|]. split; [reflexivity|].
  split; [reflexivity|].
  intros text Tx. exists (value_tokens text).
  now apply count_tokens_is_text.
Qed.
End Estimate.

Lemma count_message_tokens_sum_witness :
  let named :=
    [("role", PStr "user"); ("content", PStr "hi"); ("name", PStr "Ann")] in
  forallb (fun kv => is_text (snd kv)) named = true
  /\ NoDup (keys named)
  /\ count_message_tokens (H := Sample.char_tokenizer) (PDict named)
     = Ok (4 + (4 + 2 + 3) - 1).
Proof.
  cbv zeta. split; [reflexivity|].
  assert (ND : NoDup (keys [("role", PStr "user"); ("content", PStr "hi");
                            ("name", PStr "Ann")])).
  { repeat constructor; simpl; intuition discriminate. }
  split; [exact ND|].
  apply (count_message_tokens_sum (H := Sample.char_tokenizer)
           [("role", PStr "user"); ("content", PStr "hi");
            ("name", PStr "Ann")] eq_refl ND).
Defined.

(** C8, as stated, fails: with one token per character the turn
    [{"role": "user", "content": "hi"}] is estimated at 10, the 4 tokens
    of the role included, not at 2 + 4. *)
Lemma count_message_tokens_counts_role :
  let turn := PDict [("role", PStr "user"); ("content", PStr "hi")] in
  count_tokens (H := Sample.char_tokenizer) (PStr "hi") = Ok 2
  /\ count_message_tokens (H := Sample.char_tokenizer) turn = Ok 10
  /\ count_message_tokens (H := Sample.char_tokenizer) turn <> Ok (2 + 4).
Proof.
  cbv zeta. split; [reflexivity|]. split; [reflexivity|].
  intros E. vm_compute in E. discriminate E.
Qed.

(** Whatever the tokenizer, a role it gives a token makes the estimate of
    the turn larger than the estimate of the content plus 4. *)
Lemma role_is_counted `{Tokenizer} (role content : string) :
  0 < text_tokens role ->
  count_message_tokens (PDict [("role", PStr role); ("content", PStr content)])
  <> Ok (text_tokens content + 4).
Proof.
  intros P. rewrite count_turn. intros E.
  assert (4 + text_tokens role + text_tokens content = text_tokens content + 4)
    as E' by congruence.
  lia.
Qed.


(* ===================================================================== *)
(** * The known users *)
(* ===================================================================== *)

Lemma field_of_set_field (user_id : Z) (key : string) (value : pyval)
    (data : known_users) :
  In user_id (keys data) ->
  field_of user_id key (set_field user_id key value data) = Some value.
Proof.
  intros I. unfold field_of, set_field.
  destruct (dict_get Z.eqb user_id data) as [info|] eqn:G.
  - rewrite (dict_get_set_eq Z.eqb Z.eqb_eq).
    apply (dict_get_set_eq String.eqb String.eqb_eq).
  - apply (dict_get_none Z.eqb Z.eqb_eq) in G. contradiction.
Qed.

Lemma field_of_set_other (user_id : Z) (key key' : string) (value : pyval)
    (data : known_users) :
  key' <> key ->
  field_of user_id key' (set_field user_id key value data)
  = field_of user_id key' data.
Proof.
  intros N. unfold field_of, set_field.
  destruct (dict_get Z.eqb user_id data) as [info|] eqn:G.
  - rewrite (dict_get_set_eq Z.eqb Z.eqb_eq).
    now apply (dict_get_set_neq String.eqb String.eqb_eq).
  - now rewrite G.
Qed.

Lemma keys_set_field (user_id : Z) (key : string) (value : pyval)
    (data : known_users) :
  keys (set_field user_id key value data) = keys data.
Proof.
  unfold set_field.
  destruct (dict_get Z.eqb user_id data) as [info|] eqn:G; [|reflexivity].
  apply (keys_dict_set_present Z.eqb Z.eqb_eq).
  eapply dict_get_some_key. exact G.
Qed.

(** The entry of the user exists once the function has passed its
    first test. *)
Lemma entry_ensured (user_id : Z) (data : known_users) :
  In user_id
    (keys (if dict_mem Z.eqb user_id data then data
           else dict_set Z.eqb user_id [] data)).
Proof.
  unfold dict_mem.
  destruct (dict_get Z.eqb user_id data) as [info|] eqn:G.
  - eapply dict_get_some_key. exact G.
  - eapply dict_get_some_key. apply (dict_get_set_eq Z.eqb Z.eqb_eq).
Qed.

(** What the code does: [update_user_in_memory] returns [True], writes
    the fields it was given and stamps the entry with the time of the call
    whenever a description or a name is passed, whether or not they differ
    from the stored values; it returns [False] only when neither is
    passed, and then it writes no field and no time (a user that was not
    known gets an empty entry). *)
Theorem update_user_in_memory_changed (timestamp : string) (user_id : Z)
    (description name : option string) (data : known_users) :
  let run := update_user_in_memory timestamp user_id description name data in
  fst run
  = match description, name with
    | None, None => false
    | _, _ => true
    end
  /\ (fst run = true ->
      field_of user_id "last_updated_by_ai" (snd run)
      = Some (PStr timestamp))
  /\ (forall d, description = Some d ->
                field_of user_id "description" (snd run) = Some (PStr d))
  /\ (forall n, name = Some n ->
                field_of user_id "name" (snd run) = Some (PStr n))
  /\ (fst run = false ->
      snd run
      = if dict_mem Z.eqb user_id data then data
        else dict_set Z.eqb user_id [] data).
Proof.
  pose proof (entry_ensured user_id data) as I.
  unfold update_user_in_memory.
  set (data0 := if dict_mem Z.eqb user_id data then data
                else dict_set Z.eqb user_id [] data) in *.
  destruct description as [d|], name as [n|]; cbn [fst snd];
    (split; [reflexivity|]).
  - split; [intros _; apply field_of_set_field;
            now rewrite !keys_set_field|].
    split.
    { intros d' [= <-].
      rewrite !field_of_set_other by discriminate.
      now apply field_of_set_field. }
    split; [|discriminate].
    intros n' [= <-]. rewrite field_of_set_other by discriminate.
    apply field_of_set_field. now rewrite keys_set_field.
  - split; [intros _; apply field_of_set_field;
            now rewrite !keys_set_field|].
    split.
    { intros d' [= <-].
      rewrite !field_of_set_other by discriminate.
      now apply field_of_set_field. }
    split; [discriminate|discriminate].
  - split; [intros _; apply field_of_set_field;
            now rewrite !keys_set_field|].
    split; [discriminate|].
    split; [|discriminate].
    intros n' [= <-]. rewrite field_of_set_other by discriminate.
    now apply field_of_set_field.
  - split; [discriminate|]. split; [discriminate|].
    split; [discriminate|]. reflexivity.
Qed.

Lemma update_user_in_memory_changed_witness :
  let run :=
    update_user_in_memory "2024-06-01T00:00:00Z" 7 None None Sample.ledger in
  fst run = false /\ snd run = Sample.ledger.
Proof.
  cbv zeta. split; [reflexivity|].
  apply (update_user_in_memory_changed "2024-06-01T00:00:00Z" 7 None None
           Sample.ledger).
  reflexivity.
Defined.

(** C9.  The code at the failing input: an update that repeats the
    stored description and name changes neither, and yet the function
    returns [True] and moves the time stamp, where the claim, and the
    caller that saves the ledger "only if memory update was meaningful",
    expect [False] and the old stamp. *)
Lemma update_user_in_memory_restamps :
  let run :=
    update_user_in_memory "2024-06-01T00:00:00Z" 7
      (Some "likes tea") (Some "Ann") Sample.ledger in
  field_of 7 "description" Sample.ledger = Some (PStr "likes tea")
  /\ field_of 7 "name" Sample.ledger = Some (PStr "Ann")
  /\ fst run = true
  /\ field_of 7 "last_updated_by_ai" (snd run)
     = Some (PStr "2024-06-01T00:00:00Z")
  /\ field_of 7 "last_updated_by_ai" (snd run)
     <> field_of 7 "last_updated_by_ai" Sample.ledger.
Proof.
  cbv zeta. repeat (split; [reflexivity|]).
  intros E. vm_compute in E. discriminate E.
Qed.

(* ===================================================================== *)
(** * Valid stores stay valid *)
(* ===================================================================== *)

Lemma valid_store_intro (chats : ChatHistoriesType) :
  NoDup (keys chats) ->
  (forall e, In e chats -> valid_chat (snd e) = true) ->
  valid_store chats = true.
Proof.
  intros ND VC. unfold valid_store.
  rewrite andb_true_iff, distinct_NoDup, forallb_forall. tauto.
Qed.

Lemma NoDup_snoc (l : list Z) (k : Z) :
  NoDup l -> ~ In k l -> NoDup (l ++ [k]).
Proof.
  induction l as [|x l IH]; intros ND N; simpl.
  - constructor; [intros []|constructor].
  - inversion ND as [|? ? Nx ND']; subst. constructor.
    + rewrite in_app_iff. simpl in *. intuition congruence.
    + apply IH; [exact ND'|]. simpl in N. tauto.
Qed.

Lemma dict_set_in (k : Z) (c : chat_data) (chats : ChatHistoriesType)
    (e : Z * chat_data) :
  In e (dict_set Z.eqb k c chats) -> e = (k, c) \/ In e chats.
Proof.
  induction chats as [|[k' c'] chats IH]; simpl.
  - intros [<-|[]]. now left.
  - destruct (Z.eqb_spec k k') as [->|Ne]; simpl.
    + intros [<-|I]; [now left|right; now right].
    + intros [<-|I]; [right; now left|].
      destruct (IH I) as [->|J]; [now left|right; now right].
Qed.

Lemma valid_store_set (k : Z) (c : chat_data) (chats : ChatHistoriesType) :
  valid_store chats = true ->
  valid_chat c = true ->
  valid_store (dict_set Z.eqb k c chats) = true.
Proof.
  intros V Vc. apply valid_store_inv in V. destruct V as [ND VC].
  apply valid_store_intro.
  - destruct (dict_get Z.eqb k chats) as [old|] eqn:G.
    + rewrite (keys_dict_set_present Z.eqb Z.eqb_eq);
        [exact ND|eapply dict_get_some_key; exact G].
    + apply (dict_get_none Z.eqb Z.eqb_eq) in G.
      rewrite (dict_set_fresh Z.eqb Z.eqb_eq) by exact G.
      rewrite keys_app. now apply NoDup_snoc.
  - intros e I. apply dict_set_in in I. destruct I as [->|I];
      [exact Vc|now apply VC].
Qed.

Lemma valid_store_filter (p : Z * chat_data -> bool)
    (chats : ChatHistoriesType) :
  valid_store chats = true -> valid_store (filter p chats) = true.
Proof.
  intros V. apply valid_store_inv in V. destruct V as [ND VC].
  apply valid_store_intro.
  - induction chats as [|[k c] chats IH]; [constructor|].
    inversion ND as [|? ? Nk ND']; subst. simpl.
    assert (NoDup (keys (filter p chats))) as NDf
      by (apply IH; [exact ND'|intros e I; apply VC; now right]).
    destruct (p (k, c)); [|exact NDf].
    simpl. constructor; [|exact NDf].
    intros I. apply Nk. eapply keys_filter_incl. exact I.
  - intros e I. apply filter_In in I. now apply VC.
Qed.

(** The empty store of a new manager is valid, and the three operations
    that change the store keep it valid. *)
Lemma start_new_chat_valid (self : ChatManager) (text : string)
    (id conversation reply_id : Z) (reply : string) (now : Q) :
  valid_store (active_chats self) = true ->
  valid_store
    (active_chats
       (snd (start_new_chat text id conversation reply_id reply now self)))
  = true.
Proof.
  intros V. unfold start_new_chat, bind, attr, set_active_chats, ret.
  cbn [snd active_chats with_active_chats].
  now apply valid_store_set.
Qed.

Lemma add_message_to_chat_valid (self : ChatManager) (thread_key : Z)
    (role content : string) (id : Z) (now : Q) :
  valid_store (active_chats self) = true ->
  valid_store
    (active_chats
       (snd (add_message_to_chat thread_key role content id now self)))
  = true.
Proof.
  intros V. unfold add_message_to_chat, bind, attr.
  destruct (dict_get Z.eqb thread_key (active_chats self)) as [data|] eqn:G;
    [|exact V].
  cbn [snd active_chats with_active_chats set_active_chats ret].
  apply valid_store_set; [exact V|].
  pose proof (proj2 (valid_store_inv _ V) (thread_key, data)
                (dict_get_some_in Z.eqb Z.eqb_eq _ _ _ G)) as Vd.
  apply valid_chat_inv in Vd. destruct Vd as (Vm & _ & Vi).
  cbn [snd] in Vm, Vi. unfold valid_chat. cbn [messages last_interaction chat_id is_number].
  rewrite Vi, andb_true_r, andb_true_r, forallb_app.
  apply andb_true_iff. split; [now apply forallb_forall|reflexivity].
Qed.

Lemma cleanup_expired_chats_valid (now : Q) (self : ChatManager) :
  valid_store (active_chats self) = true ->
  valid_store (active_chats (snd (cleanup_expired_chats now self))) = true.
Proof.
  intros V.
  rewrite cleanup_run;
    [ | apply valid_store_inv in V; tauto | now apply valid_store_numbers ].
  cbn [snd active_chats with_active_chats].
  now apply valid_store_filter.
Qed.

(** The scenario of the specification: start the thread 100, append the
    user turn 101, and ask for the message 101 of the thread. *)
Example appended_turn_found :
  let m0 := Sample.manager [] 0 120 in
  let m1 := snd (start_new_chat "hi" 100 1 200 "hello" (inject_Z 10) m0) in
  let m2 :=
    snd (add_message_to_chat 100 "user" "how are you" 101 (inject_Z 20) m1) in
  fst (get_message_by_telegram_id 100 101 m2)
  = Ok (Some (message "user" "how are you" 101))
  /\ fst (_find_thread_key_for_reply 200 1 m2) = Ok (Some 100)
  /\ fst (_find_thread_key_for_reply 100 1 m2) = Ok (Some 100).
Proof. repeat split; reflexivity. Qed.

(* ===================================================================== *)
(** * Further properties of the manager *)
(* ===================================================================== *)

(** ** Loading never fails *)

(** Expiry changes nothing but the store, also when it raises. *)
Lemma cleanup_frame (now : Q) (self : ChatManager) :
  exists r chats',
    cleanup_expired_chats now self = (r, with_active_chats chats' self).
Proof.
  unfold cleanup_expired_chats, bind, attr, lift.
  destruct (comprehension _ _) as [expired|e].
  - rewrite for_each_del. unfold ret. eexists _, _. reflexivity.
  - exists (Raise e), (active_chats self).
    now rewrite with_active_chats_same.
Qed.

(** X1.  [load_chat_histories] never lets an exception out and touches
    nothing but the store: it returns [True] or [False], and whenever it
    returns [False] the store is empty.  A missing file gives [True] and
    the empty store; a file that cannot be opened, that is not JSON or
    whose JSON is not an object gives [False]. *)
Theorem load_chat_histories_safe (now : Q) (disk : file_state)
    (self : ChatManager) :
  exists ok chats,
    load_chat_histories now disk self = (Ok ok, with_active_chats chats self)
    /\ (ok = false -> chats = [])
    /\ (disk = NoFile -> ok = true /\ chats = [])
    /\ (disk = Unreadable \/ disk = Corrupt -> ok = false)
    /\ (forall v, disk = Json v -> (forall d, v <> PDict d) -> ok = false).
Proof.
  destruct disk as [| | |v].
  - exists true, []. split; [reflexivity|].
    split; [discriminate|]. split; [auto|].
    split; [intros [E|E]; discriminate E|discriminate].
  - exists false, []. split; [reflexivity|]. split; [reflexivity|].
    split; [discriminate|]. split; [reflexivity|discriminate].
  - exists false, []. split; [reflexivity|]. split; [reflexivity|].
    split; [discriminate|]. split; [reflexivity|discriminate].
  - unfold load_chat_histories, try_except.
    unfold bind at 1. unfold lift at 1. cbn [json_load].
    unfold bind at 1. unfold lift at 1.
    destruct (_deserialize_active_chats v) as [chats|e] eqn:D.
    + unfold bind at 1. unfold set_active_chats at 1.
      unfold bind at 1.
      destruct (cleanup_frame now (with_active_chats chats self))
        as (r & chats' & Run).
      rewrite Run. rewrite with_active_chats_twice.
      destruct r as [x|e].
      * exists true, chats'. split; [reflexivity|].
        split; [discriminate|]. split; [discriminate|].
        split; [intros [E|E]; discriminate E|].
        intros v' [= <-] N. destruct v; try discriminate D.
        now destruct (N d).
      * exists false, []. split; [reflexivity|]. split; [reflexivity|].
        split; [discriminate|]. split; reflexivity.
    + exists false, []. split; [reflexivity|]. split; [reflexivity|].
      split; [discriminate|]. split; reflexivity.
Qed.

Lemma load_chat_histories_safe_witness :
  exists ok chats,
    load_chat_histories (inject_Z 2000) (Json (PList []))
      (Sample.manager Sample.store 0 120)
    = (Ok ok, with_active_chats chats (Sample.manager Sample.store 0 120))
    /\ ok = false /\ chats = [].
Proof.
  destruct (load_chat_histories_safe (inject_Z 2000) (Json (PList []))
              (Sample.manager Sample.store 0 120))
    as (ok & chats & Run & Empty & _ & _ & NotObj).
  exists ok, chats. split; [exact Run|].
  assert (ok = false) as E by (apply (NotObj (PList [])); [reflexivity|discriminate]).
  split; [exact E|apply Empty, E].
Defined.

(** ** Finding a message and a thread *)

Lemma message_with_id_spec (msgs : list pyval) (id : Z) :
  (forall m, In m msgs -> is_message m = true) ->
  exists r,
    message_with_id msgs id = Ok r
    /\ match r with
       | Some m =>
           exists before after role content,
             msgs = before ++ m :: after
             /\ m = message role content id
             /\ forall role' content',
                  ~ In (message role' content' id) before
       | None => forall role content, ~ In (message role content id) msgs
       end.
Proof.
  induction msgs as [|m msgs IH]; intros V.
  - exists None. split; [reflexivity|]. intros ? ? [].
  - destruct (is_message_inv m (V m (or_introl eq_refl)))
      as (r & c & i & ->).
    destruct IH as (found & Run & Spec);
      [intros m' I; apply V; now right|].
    simpl. destruct (Z.eqb_spec i id) as [->|Ne].
    + exists (Some (message r c id)). split; [reflexivity|].
      exists [], msgs, r, c. split; [reflexivity|].
      split; [reflexivity|]. intros ? ? [].
    + exists found. split; [exact Run|]. destruct found as [m|].
      * destruct Spec as (before & after & r' & c' & -> & -> & First).
        exists (message r c i :: before), after, r', c'.
        split; [reflexivity|]. split; [reflexivity|].
        intros r2 c2 [E|I]; [|now apply (First r2 c2)].
        apply message_inj in E. destruct E as (_ & _ & E). contradiction.
      * intros r2 c2 [E|I]; [|now apply (Spec r2 c2)].
        apply message_inj in E. destruct E as (_ & _ & E). contradiction.
Qed.

(** X2.  On a valid store [get_message_by_telegram_id] changes nothing;
    for a key that is not in the store it returns [None], and for a thread
    of the store it returns the first turn of the thread that carries the
    id, or [None] when no turn of the thread does. *)
Theorem get_message_by_telegram_id_spec (self : ChatManager)
    (thread_key telegram_message_id : Z) :
  valid_store (active_chats self) = true ->
  exists r,
    get_message_by_telegram_id thread_key telegram_message_id self
    = (Ok r, self)
    /\ match dict_get Z.eqb thread_key (active_chats self), r with
       | None, r => r = None
       | Some data, Some m =>
           exists before after role content,
             messages data = before ++ m :: after
             /\ m = message role content telegram_message_id
             /\ forall role' content',
                  ~ In (message role' content' telegram_message_id) before
       | Some data, None =>
           forall role content,
             ~ In (message role content telegram_message_id) (messages data)
       end.
Proof.
  intros V. apply valid_store_inv in V. destruct V as [_ VC].
  unfold get_message_by_telegram_id, bind, attr, lift, ret.
  destruct (dict_get Z.eqb thread_key (active_chats self)) as [data|] eqn:G.
  - apply (dict_get_some_in Z.eqb Z.eqb_eq) in G.
    apply VC, valid_chat_inv in G. destruct G as (Vm & _).
    destruct (message_with_id_spec (messages data) telegram_message_id Vm)
      as (r & Run & Spec).
    exists r. rewrite Run. split; [reflexivity|exact Spec].
  - exists None. split; reflexivity.
Qed.

Lemma get_message_by_telegram_id_spec_witness :
  valid_store Sample.store = true
  /\ get_message_by_telegram_id 300 200 (Sample.manager Sample.store 0 120)
     = (Ok (Some (message "assistant" "yes" 200)),
        Sample.manager Sample.store 0 120).
Proof.
  split; [reflexivity|].
  destruct (get_message_by_telegram_id_spec
              (Sample.manager Sample.store 0 120) 300 200 eq_refl)
    as (r & Run & _).
  rewrite Run. f_equal. f_equal.
  vm_compute in Run. now injection Run as <-.
Defined.

(** X3.  A thread just started is found by a reply to either of its two
    messages: when no other thread of the conversation holds a turn with
    that id, [_find_thread_key_for_reply] after [start_new_chat] returns
    the key of the new thread. *)
Theorem start_then_find (self : ChatManager) (text : string)
    (user_message_id in_chat_id reply_message_id : Z) (reply : string)
    (now : Q) (id : Z) :
  valid_store (active_chats self) = true ->
  id = user_message_id \/ id = reply_message_id ->
  (forall k c, In (k, c) (active_chats self) -> k <> user_message_id ->
               ~ reply_target in_chat_id id c) ->
  let started :=
    snd (start_new_chat text user_message_id in_chat_id reply_message_id
           reply now self) in
  _find_thread_key_for_reply id in_chat_id started
  = (Ok (Some user_message_id), started).
Proof.
  intros V Id Others started.
  assert (V' : valid_store (active_chats started) = true)
    by (apply start_new_chat_valid; exact V).
  set (fresh := {| messages := [message "user" text user_message_id;
                                message "assistant" reply reply_message_id];
                   last_interaction := PFloat now;
                   chat_id := PInt in_chat_id |}).
  assert (Chats : active_chats started
                  = dict_set Z.eqb user_message_id fresh (active_chats self))
    by reflexivity.
  assert (Target : reply_target in_chat_id id fresh).
  { split; [reflexivity|]. destruct Id as [->| ->].
    - exists "user", text. now left.
    - exists "assistant", reply. right. now left. }
  destruct (reply_in_chats_spec (active_chats started) id in_chat_id
              (proj2 (valid_store_inv _ V')))
    as (r & Run & Spec).
  unfold _find_thread_key_for_reply, bind, attr, lift. rewrite Run.
  f_equal. f_equal. destruct r as [k|].
  - destruct Spec as (before & c & after & Split & T & _).
    destruct (Z.eq_dec k user_message_id) as [->|Ne]; [reflexivity|].
    exfalso. apply (Others k c); [|exact Ne|exact T].
    assert (In (k, c) (active_chats started)) as I
      by (rewrite Split; apply in_elt).
    rewrite Chats in I. apply dict_set_in in I.
    destruct I as [[= E _]|I]; [contradiction|exact I].
  - exfalso. apply (Spec (user_message_id, fresh)); [|exact Target].
    rewrite Chats. apply (dict_get_some_in Z.eqb Z.eqb_eq).
    apply (dict_get_set_eq Z.eqb Z.eqb_eq).
Qed.

Lemma start_then_find_witness :
  let self := Sample.manager Sample.store 0 120 in
  let started := snd (start_new_chat "hi" 500 1 501 "hello" (inject_Z 9) self) in
  valid_store (active_chats self) = true
  /\ _find_thread_key_for_reply 501 1 started = (Ok (Some 500), started).
Proof.
  cbv zeta. split; [reflexivity|].
  apply (start_then_find (Sample.manager Sample.store 0 120) "hi" 500 1 501
           "hello" (inject_Z 9) 501 eq_refl (or_intror eq_refl)).
  intros k c [[= <- <-]|[[= <- <-]|[]]] _ [C T].
  - destruct T as (r & c & [E|[E|[]]]); discriminate E.
  - discriminate C.
Defined.

Lemma message_with_id_snoc (msgs : list pyval) (role content : string)
    (id : Z) :
  (forall m, In m msgs -> is_message m = true) ->
  (forall role' content', ~ In (message role' content' id) msgs) ->
  message_with_id (msgs ++ [message role content id]) id
  = Ok (Some (message role content id)).
Proof.
  induction msgs as [|m msgs IH]; intros V Fresh.
  - simpl. now rewrite Z.eqb_refl.
  - destruct (is_message_inv m (V m (or_introl eq_refl)))
      as (r & c & i & ->).
    simpl. destruct (Z.eqb_spec i id) as [->|Ne].
    + exfalso. apply (Fresh r c). now left.
    + apply IH; [intros m' I; apply V; now right|].
      intros r' c' I. apply (Fresh r' c'). now right.
Qed.

(** X4.  A turn appended with an id the thread did not hold yet is the
    turn [get_message_by_telegram_id] returns for that id afterwards. *)
Theorem add_then_get_message (self : ChatManager) (thread_key : Z)
    (role content : string) (telegram_message_id : Z) (now : Q)
    (data : chat_data) :
  valid_store (active_chats self) = true ->
  dict_get Z.eqb thread_key (active_chats self) = Some data ->
  (forall role' content',
     ~ In (message role' content' telegram_message_id) (messages data)) ->
  let added :=
    snd (add_message_to_chat thread_key role content telegram_message_id
           now self) in
  get_message_by_telegram_id thread_key telegram_message_id added
  = (Ok (Some (message role content telegram_message_id)), added).
Proof.
  intros V G Fresh added.
  assert (Vm : forall m, In m (messages data) -> is_message m = true).
  { apply (dict_get_some_in Z.eqb Z.eqb_eq) in G.
    apply (proj2 (valid_store_inv _ V)), valid_chat_inv in G. tauto. }
  assert (G' : dict_get Z.eqb thread_key (active_chats added)
               = Some {| messages :=
                           messages data
                           ++ [message role content telegram_message_id];
                         last_interaction := PFloat now;
                         chat_id := chat_id data |}).
  { unfold added, add_message_to_chat, bind, attr. rewrite G.
    cbn [snd active_chats with_active_chats set_active_chats ret].
    apply (dict_get_set_eq Z.eqb Z.eqb_eq). }
  unfold get_message_by_telegram_id, bind, attr, lift. rewrite G'.
  cbn [messages]. now rewrite message_with_id_snoc.
Qed.

Lemma add_then_get_message_witness :
  let self := Sample.manager Sample.store 0 120 in
  let added :=
    snd (add_message_to_chat 100 "user" "how are you" 101 (inject_Z 20)
           self) in
  valid_store (active_chats self) = true
  /\ get_message_by_telegram_id 100 101 added
     = (Ok (Some (message "user" "how are you" 101)), added).
Proof.
  cbv zeta. split; [reflexivity|].
  apply (add_then_get_message (Sample.manager Sample.store 0 120) 100
           "user" "how are you" 101 (inject_Z 20) Sample.thread100
           eq_refl eq_refl).
  intros r c [E|[E|[]]]; discriminate E.
Defined.

(** ** More on the history sent to the model *)

Section HistoryShape.
Context `{Tokenizer}.

Lemma turns_sum_nonneg (l : list pyval) :
  (forall m, In m l -> is_message m = true) -> 0 <= turns_sum l.
Proof.
  induction l as [|m l IH]; intros V; simpl; [lia|].
  pose proof (turn_tokens_pos m (V m (or_introl eq_refl))).
  assert (0 <= turns_sum l) by (apply IH; intros m' I; apply V; now right).
  lia.
Qed.

(** When everything fits the loop takes everything. *)
Lemma trim_loop_all (window : Z) (newest_first acc : list pyval) (cur : Z) :
  (forall m, In m newest_first -> is_message m = true) ->
  cur + turns_sum newest_first <= window ->
  trim_loop window newest_first acc cur
  = Ok (rev (map ai_format newest_first) ++ acc,
        cur + turns_sum newest_first).
Proof.
  revert acc cur. induction newest_first as [|m l IH]; intros acc cur V Fit.
  - simpl. now rewrite Z.add_0_r.
  - rewrite trim_loop_step by (apply V; now left). simpl in Fit.
    assert (0 <= turns_sum l)
      by (apply turns_sum_nonneg; intros m' I; apply V; now right).
    destruct (Z.leb_spec (cur + turn_tokens m) window) as [Le|Gt]; [|lia].
    rewrite IH; [|intros m' I; apply V; now right|lia].
    simpl. rewrite <- app_assoc. simpl. do 2 f_equal. lia.
Qed.

(** X5.  When the reserve and the estimates of all the turns of a thread
    fit the budget, [get_history_for_ai] returns every turn of the thread,
    in order. *)
Theorem get_history_for_ai_all_fit (self : ChatManager) (thread_key : Z)
    (data : chat_data) :
  dict_get Z.eqb thread_key (active_chats self) = Some data ->
  forallb is_message (messages data) = true ->
  system_prompt_tokens self + turns_sum (messages data)
  <= context_window_tokens self ->
  get_history_for_ai thread_key self
  = (Ok (Some (map ai_format (messages data))), self).
Proof.
  intros G V Fit. rewrite forallb_forall in V.
  unfold get_history_for_ai, bind, attr, lift, ret. rewrite G.
  rewrite trim_loop_all;
    [ | intros m I; apply V; now apply in_rev | now rewrite turns_sum_rev ].
  cbn [fst]. now rewrite app_nil_r, map_rev, rev_involutive.
Qed.

(** X6.  The newest turn decides whether anything is returned: when it
    fits beside the reserve the history is not empty and ends with it, and
    when it does not fit the history is the empty list, whatever the older
    turns are. *)
Theorem get_history_for_ai_newest (self : ChatManager) (thread_key : Z)
    (data : chat_data) (older : list pyval) (newest : pyval) :
  dict_get Z.eqb thread_key (active_chats self) = Some data ->
  forallb is_message (messages data) = true ->
  messages data = older ++ [newest] ->
  (system_prompt_tokens self + turn_tokens newest
   <= context_window_tokens self ->
   exists view,
     get_history_for_ai thread_key self
     = (Ok (Some (view ++ [ai_format newest])), self))
  /\ (context_window_tokens self
      < system_prompt_tokens self + turn_tokens newest ->
      get_history_for_ai thread_key self = (Ok (Some []), self)).
Proof.
  intros G V Split. rewrite forallb_forall in V.
  assert (Vn : is_message newest = true)
    by (apply V; rewrite Split; apply in_elt).
  assert (Vo : forall m, In m (rev older) -> is_message m = true).
  { intros m I. apply V. rewrite Split, in_app_iff. left.
    now apply in_rev. }
  unfold get_history_for_ai, bind, attr, lift, ret. rewrite G, Split.
  rewrite rev_app_distr. cbn [rev app].
  rewrite trim_loop_step by exact Vn. split.
  - intros Fit.
    destruct (Z.leb_spec (system_prompt_tokens self + turn_tokens newest)
                (context_window_tokens self)) as [_|Gt]; [|lia].
    destruct (trim_loop_spec (context_window_tokens self) (rev older)
                [ai_format newest]
                (system_prompt_tokens self + turn_tokens newest) Vo)
      as (taken & rest & _ & Run & _).
    rewrite Run. cbn [fst]. eexists. reflexivity.
  - intros Gt.
    destruct (Z.leb_spec (system_prompt_tokens self + turn_tokens newest)
                (context_window_tokens self)) as [Le|_]; [lia|].
    reflexivity.
Qed.

(** A larger window keeps what the smaller one kept. *)
Lemma trim_loop_mono (window window' : Z) (newest_first acc : list pyval)
    (cur : Z) :
  (forall m, In m newest_first -> is_message m = true) ->
  window <= window' ->
  exists view more c c',
    trim_loop window newest_first acc cur = Ok (view, c)
    /\ trim_loop window' newest_first acc cur = Ok (more ++ view, c').
Proof.
  revert acc cur. induction newest_first as [|m l IH]; intros acc cur V Le.
  - exists acc, [], cur, cur. split; reflexivity.
  - rewrite !trim_loop_step by (apply V; now left).
    destruct (Z.leb_spec (cur + turn_tokens m) window) as [Fit|Gt].
    + destruct (Z.leb_spec (cur + turn_tokens m) window') as [_|Gt'];
        [|lia].
      apply IH; [intros m' I; apply V; now right|exact Le].
    + destruct (Z.leb_spec (cur + turn_tokens m) window') as [Fit'|_].
      * destruct (trim_loop_spec window' l (ai_format m :: acc)
                    (cur + turn_tokens m))
          as (taken & rest & _ & Run & _);
          [intros m' I; apply V; now right|].
        exists acc, (rev (map ai_format taken) ++ [ai_format m]), cur,
          (cur + turn_tokens m + turns_sum taken).
        split; [reflexivity|]. rewrite Run. now rewrite <- app_assoc.
      * exists acc, [], cur, cur. split; reflexivity.
Qed.

(** X7.  Raising the budget never loses a turn: for two managers with the
    same store and reserve, the history under the smaller budget is the
    end of the history under the larger one. *)
Theorem get_history_for_ai_monotone (self self' : ChatManager)
    (thread_key : Z) (data : chat_data) :
  dict_get Z.eqb thread_key (active_chats self) = Some data ->
  forallb is_message (messages data) = true ->
  active_chats self' = active_chats self ->
  system_prompt_tokens self' = system_prompt_tokens self ->
  context_window_tokens self <= context_window_tokens self' ->
  exists view more,
    get_history_for_ai thread_key self = (Ok (Some view), self)
    /\ get_history_for_ai thread_key self'
       = (Ok (Some (more ++ view)), self').
Proof.
  intros G V Chats Reserve Le. rewrite forallb_forall in V.
  destruct (trim_loop_mono (context_window_tokens self)
              (context_window_tokens self') (rev (messages data)) []
              (system_prompt_tokens self))
    as (view & more & c & c' & Run & Run');
    [intros m I; apply V; now apply in_rev|exact Le|].
  exists view, more. split.
  - unfold get_history_for_ai, bind, attr, lift, ret.
    now rewrite G, Run.
  - unfold get_history_for_ai, bind, attr, lift, ret.
    rewrite Chats, G. cbv beta iota. rewrite Reserve.
    now rewrite Run'.
Qed.
End HistoryShape.

Lemma get_history_for_ai_all_fit_witness :
  let self := Sample.manager Sample.store 0 120 in
  forallb is_message (messages Sample.thread100) = true
  /\ get_history_for_ai (H := Sample.char_tokenizer) 100 self
     = (Ok (Some [PDict [("role", PStr "user"); ("content", PStr "hi")];
                  PDict [("role", PStr "assistant");
                         ("content", PStr "hello")]]), self).
Proof.
  cbv zeta. split; [reflexivity|].
  apply (get_history_for_ai_all_fit (H := Sample.char_tokenizer)
           (Sample.manager Sample.store 0 120) 100 Sample.thread100
           eq_refl eq_refl).
  vm_compute. discriminate.
Defined.

Lemma get_history_for_ai_newest_witness :
  let self := Sample.manager Sample.store 0 17 in
  dict_get Z.eqb 100 (active_chats self) = Some Sample.thread100
  /\ turn_tokens (H := Sample.char_tokenizer)
       (message "assistant" "hello" 200) = 18
  /\ get_history_for_ai (H := Sample.char_tokenizer) 100 self
     = (Ok (Some []), self).
Proof.
  cbv zeta. split; [reflexivity|]. split; [reflexivity|].
  apply (get_history_for_ai_newest (H := Sample.char_tokenizer)
           (Sample.manager Sample.store 0 17) 100 Sample.thread100
           [message "user" "hi" 100] (message "assistant" "hello" 200)
           eq_refl eq_refl eq_refl).
  vm_compute. reflexivity.
Defined.

Lemma get_history_for_ai_monotone_witness :
  let small := Sample.manager Sample.store 0 20 in
  let large := Sample.manager Sample.store 0 120 in
  exists view more,
    get_history_for_ai (H := Sample.char_tokenizer) 100 small
    = (Ok (Some view), small)
    /\ get_history_for_ai (H := Sample.char_tokenizer) 100 large
       = (Ok (Some (more ++ view)), large).
Proof.
  cbv zeta.
  apply (get_history_for_ai_monotone (H := Sample.char_tokenizer)
           (Sample.manager Sample.store 0 20)
           (Sample.manager Sample.store 0 120) 100 Sample.thread100
           eq_refl eq_refl eq_refl eq_refl).
  vm_compute. discriminate.
Defined.

(** ** More on expiry *)

Lemma filter_twice {A : Type} (p : A -> bool) (l : list A) :
  filter p (filter p l) = filter p l.
Proof.
  induction l as [|x l IH]; [reflexivity|]. simpl.
  destruct (p x) eqn:E; simpl; [rewrite E; now f_equal|exact IH].
Qed.

(** X8.  Expiry is idempotent: on a valid store a second
    [cleanup_expired_chats] at the same time removes nothing more. *)
Theorem cleanup_expired_chats_idempotent (now : Q) (self : ChatManager) :
  valid_store (active_chats self) = true ->
  let cleaned := snd (cleanup_expired_chats now self) in
  cleanup_expired_chats now cleaned = (Ok PNone, cleaned).
Proof.
  intros V cleaned.
  assert (V' : valid_store (active_chats cleaned) = true)
    by (now apply cleanup_expired_chats_valid).
  rewrite cleanup_run;
    [ | apply valid_store_inv in V'; tauto | now apply valid_store_numbers ].
  f_equal. unfold cleaned.
  rewrite cleanup_run;
    [ | apply valid_store_inv in V; tauto | now apply valid_store_numbers ].
  cbn [snd active_chats with_active_chats chat_history_expiry_seconds].
  unfold fresh_chats. now rewrite filter_twice.
Qed.

Lemma cleanup_expired_chats_idempotent_witness :
  let self := Sample.manager Sample.store 0 120 in
  let cleaned := snd (cleanup_expired_chats (inject_Z 600000) self) in
  valid_store (active_chats self) = true
  /\ active_chats cleaned = [(300, Sample.thread300)]
  /\ cleanup_expired_chats (inject_Z 600000) cleaned = (Ok PNone, cleaned).
Proof.
  cbv zeta. split; [reflexivity|]. split; [reflexivity|].
  apply (cleanup_expired_chats_idempotent (inject_Z 600000)
           (Sample.manager Sample.store 0 120) eq_refl).
Defined.

Lemma dict_get_filter (p : Z * chat_data -> bool) (k : Z) (c : chat_data)
    (chats : ChatHistoriesType) :
  NoDup (keys chats) ->
  dict_get Z.eqb k chats = Some c ->
  p (k, c) = true ->
  dict_get Z.eqb k (filter p chats) = Some c.
Proof.
  induction chats as [|[k' c'] chats IH]; intros ND G P; [discriminate G|].
  inversion ND as [|? ? Nk ND']; subst. simpl in G. simpl.
  destruct (Z.eqb_spec k k') as [->|Ne].
  - injection G as ->. rewrite P. simpl. now rewrite Z.eqb_refl.
  - destruct (p (k', c')); [|now apply IH].
    simpl. destruct (Z.eqb_spec k k') as [E|_]; [contradiction|].
    now apply IH.
Qed.

(** X9.  Appending resets the expiry clock: a thread that got a turn at
    time [now] survives every [cleanup_expired_chats] run no later than
    the expiry duration after [now], however old the thread was before. *)
Theorem add_message_postpones_expiry (self : ChatManager) (thread_key : Z)
    (role content : string) (telegram_message_id : Z) (now later : Q)
    (data : chat_data) :
  valid_store (active_chats self) = true ->
  dict_get Z.eqb thread_key (active_chats self) = Some data ->
  (later - now <= chat_history_expiry_seconds self)%Q ->
  let added :=
    snd (add_message_to_chat thread_key role content telegram_message_id
           now self) in
  let cleaned := snd (cleanup_expired_chats later added) in
  dict_get Z.eqb thread_key (active_chats cleaned)
  = Some {| messages :=
              messages data ++ [message role content telegram_message_id];
            last_interaction := PFloat now;
            chat_id := chat_id data |}.
Proof.
  intros V G Soon added cleaned.
  assert (V' : valid_store (active_chats added) = true)
    by (now apply add_message_to_chat_valid).
  assert (A : added
              = with_active_chats
                  (dict_set Z.eqb thread_key
                     {| messages :=
                          messages data
                          ++ [message role content telegram_message_id];
                        last_interaction := PFloat now;
                        chat_id := chat_id data |}
                     (active_chats self)) self).
  { unfold added, add_message_to_chat, bind, attr. now rewrite G. }
  unfold cleaned.
  rewrite cleanup_run;
    [ | apply valid_store_inv in V'; tauto | now apply valid_store_numbers ].
  cbn [snd active_chats with_active_chats].
  unfold fresh_chats. apply dict_get_filter.
  - apply valid_store_inv in V'. tauto.
  - rewrite A. cbn [active_chats with_active_chats].
    apply (dict_get_set_eq Z.eqb Z.eqb_eq).
  - cbn [snd]. unfold stale. cbn [last_interaction py_number].
    rewrite negb_involutive. apply Qle_bool_iff.
    rewrite A. cbn [chat_history_expiry_seconds with_active_chats]. lra.
Qed.

Lemma add_message_postpones_expiry_witness :
  let self := Sample.manager Sample.store 0 120 in
  let added :=
    snd (add_message_to_chat 100 "user" "still there?" 101
           (inject_Z 600000) self) in
  let cleaned := snd (cleanup_expired_chats (inject_Z 600001) added) in
  stale (inject_Z 600001) (chat_history_expiry_seconds self)
    Sample.thread100 = true
  /\ keys (active_chats cleaned) = [100; 300].
Proof.
  cbv zeta. split; [reflexivity|].
  pose proof (add_message_postpones_expiry
                (Sample.manager Sample.store 0 120) 100 "user"
                "still there?" 101 (inject_Z 600000) (inject_Z 600001)
                Sample.thread100 eq_refl eq_refl) as Kept.
  assert (Soon : (inject_Z 600001 - inject_Z 600000
                  <= chat_history_expiry_seconds
                       (Sample.manager Sample.store 0 120))%Q)
    by (vm_compute; discriminate).
  specialize (Kept Soon). cbv zeta in Kept.
  apply dict_get_some_key in Kept. reflexivity.
Defined.

(** ** The store stays a valid store *)

(** What a load leaves: a flag, the store it has read, and the other
    attributes as they were; without a JSON file the store is empty. *)
Lemma load_chat_histories_frame (now : Q) (disk : file_state)
    (self : ChatManager) :
  exists ok chats,
    load_chat_histories now disk self = (Ok ok, with_active_chats chats self)
    /\ ((forall v, disk <> Json v) -> chats = []).
Proof.
  destruct disk as [| | |v];
    try (exists true, []; split; [reflexivity|reflexivity]);
    try (exists false, []; split; [reflexivity|reflexivity]).
  unfold load_chat_histories, try_except.
  unfold bind at 1. unfold lift at 1. cbn [json_load].
  unfold bind at 1. unfold lift at 1.
  destruct (_deserialize_active_chats v) as [chats|e].
  - unfold bind at 1. unfold set_active_chats at 1. unfold bind at 1.
    destruct (cleanup_frame now (with_active_chats chats self))
      as (r & chats' & Run).
    rewrite Run, with_active_chats_twice. destruct r as [x|e].
    + exists true, chats'. split; [reflexivity|].
      intros N. now destruct (N v).
    + exists false, []. split; [reflexivity|reflexivity].
  - exists false, []. split; [reflexivity|reflexivity].
Qed.

(** The reserve of a manager built by [__init__] is not negative. *)
Lemma init_reserve `{Tokenizer} (prompt : string) (config : option (Z * Q))
    (now : Q) (disk : file_state) (self : ChatManager) :
  init prompt config now disk = Ok self -> 0 <= system_prompt_tokens self.
Proof.
  unfold init. rewrite count_tokens_text. cbn [res_bind].
  match goal with
  | |- context [load_chat_histories now disk ?s] =>
      destruct (load_chat_histories_frame now disk s)
        as (ok & chats & -> & _)
  end.
  cbn [res_bind]. intros [= <-]. cbn [system_prompt_tokens with_active_chats].
  apply text_tokens_nonneg.
Qed.

(** X10.  Validity is an invariant of the manager.  The manager that
    [__init__] builds, which ends by loading the history file, has a
    valid store when there is no file, when the file cannot be read or
    parsed, and when the file holds what [_serialize_active_chats] wrote
    for a valid store; and starting a chat, appending a turn and running
    expiry each take a valid store to a valid store. *)
Theorem valid_store_invariant `{Tokenizer} (self : ChatManager) :
  (forall prompt config now disk fresh,
     init prompt config now disk = Ok fresh ->
     (forall v, disk = Json v ->
                exists saved,
                  valid_store (active_chats saved) = true
                  /\ v = _serialize_active_chats saved) ->
     valid_store (active_chats fresh) = true)
  /\ (valid_store (active_chats self) = true ->
      (forall text id conversation reply_id reply now,
         valid_store
           (active_chats
              (snd (start_new_chat text id conversation reply_id reply now
                      self))) = true)
      /\ (forall thread_key role content id now,
            valid_store
              (active_chats
                 (snd (add_message_to_chat thread_key role content id now
                         self))) = true)
      /\ (forall now,
            valid_store
              (active_chats (snd (cleanup_expired_chats now self))) = true)).
Proof.
  split.
  - intros prompt config now disk fresh. unfold init.
    rewrite count_tokens_text. cbn [res_bind].
    match goal with
    | |- context [load_chat_histories now disk ?s] => set (self0 := s)
    end.
    intros I Saved. destruct disk as [| | |v].
    + injection I as <-. reflexivity.
    + injection I as <-. reflexivity.
    + injection I as <-. reflexivity.
    + destruct (Saved v eq_refl) as (saved & V & ->).
      assert (ND : NoDup (keys (active_chats saved)))
        by (apply valid_store_inv in V; tauto).
      rewrite (load_run now _ (active_chats saved) self0) in I;
        [ | now apply deserialize_serialize | exact ND
          | now apply valid_store_numbers ].
      injection I as <-. cbn [active_chats with_active_chats].
      now apply valid_store_filter.
  - intros V. split; [|split].
    + intros. now apply start_new_chat_valid.
    + intros. now apply add_message_to_chat_valid.
    + intros. now apply cleanup_expired_chats_valid.
Qed.

Lemma valid_store_invariant_witness :
  let self := Sample.manager Sample.store 0 120 in
  let disk := Json (_serialize_active_chats self) in
  valid_store (active_chats self) = true
  /\ (exists fresh,
        init (H := Sample.char_tokenizer) "Be kind." None (inject_Z 2000)
          disk = Ok fresh
        /\ valid_store (active_chats fresh) = true)
  /\ valid_store
       (active_chats
          (snd (add_message_to_chat 100 "user" "more" 7 (inject_Z 5) self)))
     = true.
Proof.
  cbv zeta. split; [reflexivity|]. split.
  - remember (init (H := Sample.char_tokenizer) "Be kind." None
                (inject_Z 2000)
                (Json (_serialize_active_chats
                         (Sample.manager Sample.store 0 120))))
      as built eqn:Built.
    assert (exists fresh, built = Ok fresh) as (fresh & E)
      by (rewrite Built; vm_compute; eexists; reflexivity).
    exists fresh. split; [exact E|].
    rewrite E in Built. symmetry in Built.
    apply (proj1 (valid_store_invariant (H := Sample.char_tokenizer)
                    (Sample.manager Sample.store 0 120))
             _ _ _ _ _ Built).
    intros v [= <-]. exists (Sample.manager Sample.store 0 120).
    split; reflexivity.
  - apply (proj2 (valid_store_invariant (H := Sample.char_tokenizer)
                    (Sample.manager Sample.store 0 120)) eq_refl).
Defined.

(** ** What deserialization returns *)

Lemma NoDup_keys_dict_set (k : Z) (c : chat_data)
    (chats : ChatHistoriesType) :
  NoDup (keys chats) -> NoDup (keys (dict_set Z.eqb k c chats)).
Proof.
  intros ND. destruct (dict_get Z.eqb k chats) as [old|] eqn:G.
  - rewrite (keys_dict_set_present Z.eqb Z.eqb_eq);
      [exact ND|eapply dict_get_some_key; exact G].
  - apply (dict_get_none Z.eqb Z.eqb_eq) in G.
    rewrite (dict_set_fresh Z.eqb Z.eqb_eq) by exact G.
    rewrite keys_app. now apply NoDup_snoc.
Qed.

Lemma deserialize_items_dict (items : list (string * pyval))
    (acc chats : ChatHistoriesType) :
  deserialize_items items acc = Ok chats ->
  NoDup (keys acc) ->
  NoDup (keys chats)
  /\ forall k c,
       In (k, c) chats ->
       In (k, c) acc
       \/ exists key value,
            In (key, value) items /\ deserialize_entry key value = Ok (k, c).
Proof.
  revert acc. induction items as [|[key value] items IH]; intros acc D ND.
  - injection D as <-. split; [exact ND|]. intros k c I. now left.
  - simpl in D. destruct (deserialize_entry key value) as [[ki ci]|e] eqn:E.
    + destruct (IH _ D (NoDup_keys_dict_set ki ci acc ND)) as [ND' From].
      split; [exact ND'|]. intros k c I.
      destruct (From k c I) as [J|(key' & value' & J & E')].
      * apply dict_set_in in J. destruct J as [[= -> ->]|J]; [|now left].
        right. exists key, value. split; [now left|exact E].
      * right. exists key', value'. split; [now right|exact E'].
    + rewrite (deserialize_entry_raises _ _ _ E) in D.
      destruct (IH _ D ND) as [ND' From].
      split; [exact ND'|]. intros k c I.
      destruct (From k c I) as [J|(key' & value' & J & E')]; [now left|].
      right. exists key', value'. split; [now right|exact E'].
Qed.

(** X11.  Whatever JSON object the file holds, [_deserialize_active_chats]
    returns a store, no key of which occurs twice, and every thread of it
    is the reading of a record of the file; a JSON value that is not an
    object makes it raise. *)
Theorem deserialize_gives_dict (data : pyval) :
  match data with
  | PDict items =>
      exists chats,
        _deserialize_active_chats data = Ok chats
        /\ NoDup (keys chats)
        /\ forall k c,
             In (k, c) chats ->
             exists key value,
               In (key, value) items
               /\ deserialize_entry key value = Ok (k, c)
  | _ => _deserialize_active_chats data = Raise AttributeError
  end.
Proof.
  destruct data as [| | | | | |items]; try reflexivity.
  destruct (deserialize_items_total items []) as (chats & D).
  exists chats. split; [exact D|].
  destruct (deserialize_items_dict items [] chats D (NoDup_nil Z))
    as [ND From].
  split; [exact ND|]. intros k c I.
  destruct (From k c I) as [[]|Found]. exact Found.
Qed.

(** ** More on the known users *)

Lemma dict_set_same {K V : Type} (eqb : K -> K -> bool)
    (eqb_eq : forall a b, eqb a b = true <-> a = b)
    (k : K) (v : V) (d : list (K * V)) :
  dict_get eqb k d = Some v -> dict_set eqb k v d = d.
Proof.
  induction d as [|[k' v'] d IH]; simpl; [discriminate|].
  destruct (eqb k k') eqn:E.
  - intros [= ->]. reflexivity.
  - intros G. now rewrite IH.
Qed.

Lemma set_field_same (user_id : Z) (key : string) (value : pyval)
    (data : known_users) :
  field_of user_id key data = Some value ->
  set_field user_id key value data = data.
Proof.
  unfold field_of, set_field.
  destruct (dict_get Z.eqb user_id data) as [info|] eqn:G; [|reflexivity].
  intros F. rewrite (dict_set_same String.eqb String.eqb_eq _ _ _ F).
  now apply (dict_set_same Z.eqb Z.eqb_eq).
Qed.

Lemma dict_get_set_field_other (user_id other : Z) (key : string)
    (value : pyval) (data : known_users) :
  other <> user_id ->
  dict_get Z.eqb other (set_field user_id key value data)
  = dict_get Z.eqb other data.
Proof.
  intros N. unfold set_field.
  destruct (dict_get Z.eqb user_id data); [|reflexivity].
  now apply (dict_get_set_neq Z.eqb Z.eqb_eq).
Qed.

(** X12.  [update_user_in_memory] touches one entry only: the entries of
    all other users are what they were, the fields of the user other than
    the description, the name and the time stamp keep their values, and
    the users keep their order, a user that was not known being added
    after them. *)
Theorem update_user_in_memory_frame (timestamp : string) (user_id : Z)
    (description name : option string) (data : known_users) :
  let after :=
    snd (update_user_in_memory timestamp user_id description name data) in
  (forall other, other <> user_id ->
                 dict_get Z.eqb other after = dict_get Z.eqb other data)
  /\ (forall key,
        key <> "description" -> key <> "name" ->
        key <> "last_updated_by_ai" ->
        field_of user_id key after = field_of user_id key data)
  /\ keys after
     = if dict_mem Z.eqb user_id data then keys data
       else keys data ++ [user_id].
Proof.
  unfold update_user_in_memory.
  set (data0 := if dict_mem Z.eqb user_id data then data
                else dict_set Z.eqb user_id [] data).
  assert (Other0 : forall other, other <> user_id ->
                     dict_get Z.eqb other data0 = dict_get Z.eqb other data).
  { intros other N. unfold data0. destruct (dict_mem Z.eqb user_id data);
      [reflexivity|now apply (dict_get_set_neq Z.eqb Z.eqb_eq)]. }
  assert (Field0 : forall key, field_of user_id key data0
                               = field_of user_id key data).
  { intros key. unfold data0, dict_mem, field_of.
    destruct (dict_get Z.eqb user_id data) eqn:G; [now rewrite G|].
    rewrite (dict_get_set_eq Z.eqb Z.eqb_eq), ?G. reflexivity. }
  assert (Keys0 : keys data0 = if dict_mem Z.eqb user_id data then keys data
                               else keys data ++ [user_id]).
  { unfold data0, dict_mem.
    destruct (dict_get Z.eqb user_id data) eqn:G; [reflexivity|].
    apply (dict_get_none Z.eqb Z.eqb_eq) in G.
    rewrite (dict_set_fresh Z.eqb Z.eqb_eq) by exact G.
    apply map_app. }
  destruct description as [d|], name as [n|]; cbn [snd];
    (split; [intros other N;
             rewrite ?dict_get_set_field_other by exact N;
             now apply Other0|]);
    (split; [intros key N1 N2 N3;
             rewrite ?field_of_set_other by assumption;
             apply Field0|]);
    rewrite ?keys_set_field; exact Keys0.
Qed.

Lemma update_user_in_memory_frame_witness :
  let after :=
    snd (update_user_in_memory "2024-06-01T00:00:00Z" 8 (Some "new") None
           Sample.ledger) in
  dict_get Z.eqb 7 after = dict_get Z.eqb 7 Sample.ledger
  /\ keys after = [7; 8].
Proof.
  cbv zeta.
  destruct (update_user_in_memory_frame "2024-06-01T00:00:00Z" 8
              (Some "new") None Sample.ledger) as (Other & _ & Keys).
  split; [apply Other; discriminate|exact Keys].
Defined.

(** X13.  Repeating an update changes nothing more: the same call on the
    ledger it has produced returns the same flag and leaves that ledger as
    it is. *)
Theorem update_user_in_memory_idempotent (timestamp : string) (user_id : Z)
    (description name : option string) (data : known_users) :
  let once := update_user_in_memory timestamp user_id description name data in
  update_user_in_memory timestamp user_id description name (snd once)
  = (fst once, snd once).
Proof.
  pose proof (entry_ensured user_id data) as I.
  unfold update_user_in_memory.
  set (data0 := if dict_mem Z.eqb user_id data then data
                else dict_set Z.eqb user_id [] data) in *.
  assert (Mem : forall d : known_users,
             keys d = keys data0 -> dict_mem Z.eqb user_id d = true).
  { intros d E. unfold dict_mem.
    destruct (dict_get Z.eqb user_id d) eqn:G; [reflexivity|].
    apply (dict_get_none Z.eqb Z.eqb_eq) in G. rewrite E in G.
    contradiction. }
  destruct description as [d|], name as [n|]; cbn [fst snd].
  - rewrite Mem by (now rewrite !keys_set_field).
    f_equal.
    rewrite (set_field_same user_id "description")
      by (rewrite !field_of_set_other by discriminate;
          now apply field_of_set_field).
    rewrite (set_field_same user_id "name")
      by (rewrite field_of_set_other by discriminate;
          apply field_of_set_field; now rewrite keys_set_field).
    apply set_field_same, field_of_set_field.
    now rewrite !keys_set_field.
  - rewrite Mem by (now rewrite !keys_set_field).
    f_equal.
    rewrite (set_field_same user_id "description")
      by (rewrite !field_of_set_other by discriminate;
          now apply field_of_set_field).
    apply set_field_same, field_of_set_field.
    now rewrite !keys_set_field.
  - rewrite Mem by (now rewrite !keys_set_field).
    f_equal.
    rewrite (set_field_same user_id "name")
      by (rewrite field_of_set_other by discriminate;
          now apply field_of_set_field).
    apply set_field_same, field_of_set_field.
    now rewrite !keys_set_field.
  - now rewrite Mem.
Qed.

(* ===================================================================== *)
(** * The messages of a request *)
(* ===================================================================== *)

Lemma str_length_app (a b : string) :
  String.length (a ++ b)%string = (String.length a + String.length b)%nat.
Proof. induction a as [|c a IH]; simpl; [reflexivity|now rewrite IH]. Qed.

Lemma str_app_assoc (a b c : string) :
  ((a ++ b) ++ c = a ++ (b ++ c))%string.
Proof. induction a as [|x a IH]; simpl; [reflexivity|now rewrite IH]. Qed.

Lemma substring_0_length (n : nat) (s : string) :
  (n <= String.length s)%nat -> String.length (substring 0 n s) = n.
Proof.
  revert s. induction n as [|n IH]; intros s L.
  - destruct s; reflexivity.
  - destruct s as [|c s]; simpl in *; [lia|]. rewrite IH by lia. reflexivity.
Qed.

Lemma substring_0_app (a b : string) :
  substring 0 (String.length a) (a ++ b)%string = a.
Proof.
  induction a as [|c a IH]; simpl; [now destruct b|now rewrite IH].
Qed.

(** X14.  The quoted content of the message replied to is bounded: a
    content of at most 150 characters is quoted as it is, a longer one is
    cut to its first 150 characters followed by three dots, so the quote
    never has more than 153 characters and always starts like the
    content. *)
Theorem truncated_reply_to_content_bound (content : string) :
  let quoted := truncated_reply_to_content content in
  (String.length quoted <= max_reply_context_len + 3)%nat
  /\ ((String.length content <= max_reply_context_len)%nat ->
      quoted = content)
  /\ ((max_reply_context_len < String.length content)%nat ->
      quoted = (substring 0 max_reply_context_len content ++ "...")%string
      /\ String.length quoted = (max_reply_context_len + 3)%nat)
  /\ substring 0 max_reply_context_len quoted
     = substring 0 max_reply_context_len content.
Proof.
  unfold truncated_reply_to_content.
  generalize max_reply_context_len as n. intros n. cbv zeta.
  destruct (Nat.ltb_spec n (String.length content)) as [Long|Short].
  - assert (Len : String.length (substring 0 n content) = n)
      by (apply substring_0_length; lia).
    split; [rewrite str_length_app, Len; simpl; lia|].
    split; [lia|]. split.
    + intros _. split; [reflexivity|].
      rewrite str_length_app, Len. reflexivity.
    + rewrite <- Len at 1. apply substring_0_app.
  - split; [lia|]. split; [reflexivity|]. split; [lia|reflexivity].
Qed.

Lemma truncated_reply_to_content_bound_witness :
  let long :=
    "The quick brown fox jumps over the lazy dog, and then it jumps again, and again, until the reply that quotes it is longer than the one hundred and fifty characters kept."%string in
  (max_reply_context_len < String.length long)%nat
  /\ String.length (truncated_reply_to_content long) = 153%nat
  /\ truncated_reply_to_content "short"%string = "short"%string.
Proof.
  cbv zeta.
  assert (Long : (max_reply_context_len
                  < String.length
                      "The quick brown fox jumps over the lazy dog, and then it jumps again, and again, until the reply that quotes it is longer than the one hundred and fifty characters kept."%string)%nat)
    by (unfold max_reply_context_len; simpl; lia).
  split; [exact Long|]. split.
  - apply (proj1 (proj2 (proj2 (truncated_reply_to_content_bound _))) Long).
  - apply (proj1 (proj2 (truncated_reply_to_content_bound "short"))).
    unfold max_reply_context_len. simpl. lia.
Defined.

(** A message with a role and a content. *)
Lemma getitem_mem (msg : str_dict) (k : string) :
  dict_mem String.eqb k msg = true -> exists v, getitem msg k = Ok v.
Proof.
  unfold dict_mem, getitem.
  destruct (dict_get String.eqb k msg) as [v|]; [|discriminate].
  intros _. now exists v.
Qed.

(** The messages before the last one pass through the loop unchanged. *)
Lemma processed_older (len_history i : Z) (older : list str_dict)
    (last : str_dict) (user_id : option Z)
    (reply_content reply_role : option string) :
  (forall m, In m older ->
             dict_mem String.eqb "role" m = true
             /\ dict_mem String.eqb "content" m = true) ->
  len_history = i + Z.of_nat (length older) + 1 ->
  processed_messages_for_ai len_history i (older ++ [last]) user_id
    reply_content reply_role
  = (tail <- (processed_messages_for_ai len_history
                (i + Z.of_nat (length older)) [last] user_id reply_content
                reply_role) ;;
     Ok (older ++ tail))%res.
Proof.
  revert i. induction older as [|m older IH]; intros i V Len.
  - simpl (length []). rewrite Z.add_0_r. cbn [app].
    destruct (processed_messages_for_ai _ _ _ _ _ _); reflexivity.
  - set (P := processed_messages_for_ai len_history
                (i + Z.of_nat (length (m :: older))) [last] user_id
                reply_content reply_role).
    cbn [app processed_messages_for_ai].
    destruct (V m (or_introl eq_refl)) as [Vr Vc].
    destruct (getitem_mem m "role" Vr) as (r & ->).
    destruct (getitem_mem m "content" Vc) as (c & ->).
    cbn [res_bind].
    assert ((i =? len_history - 1) = false) as ->.
    { apply Z.eqb_neq. rewrite Len. simpl length. lia. }
    rewrite andb_false_r.
    rewrite IH;
      [ | intros m' I; apply V; now right
        | rewrite Len; simpl length; lia ].
    replace (i + 1 + Z.of_nat (length older))
      with (i + Z.of_nat (length (m :: older)))
      by (simpl length; lia).
    fold P. destruct P; reflexivity.
Qed.

(** X15.  Of the history only the last message can be rewritten: when
    every message has a role and a content, [api_messages] is the system
    message, the messages before the last as they were, and the last
    message, which is as it was unless its role is "user"; then its
    content is the user prefix, the reply context if there is one, and
    the old content at the end. *)
Theorem api_messages_only_last (older : list str_dict) (last : str_dict)
    (base_system_prompt known_users_prompt_section : string)
    (user_id : option Z) (reply_content reply_role : option string)
    (role content : string) :
  (forall m, In m older ->
             dict_mem String.eqb "role" m = true
             /\ dict_mem String.eqb "content" m = true) ->
  getitem last "role" = Ok role ->
  getitem last "content" = Ok content ->
  exists last',
    api_messages (older ++ [last]) base_system_prompt
      known_users_prompt_section user_id reply_content reply_role
    = Ok ([("role", "system");
           ("content",
            full_system_prompt base_system_prompt
              known_users_prompt_section)]
          :: older ++ [last'])
    /\ (role <> "user" -> last' = last)
    /\ (role = "user" ->
        exists context,
          last' = [("role", "user");
                   ("content",
                    (user_prefix user_id ++ " " ++ context ++ content)
                      %string)]).
Proof.
  intros V Er Ec. unfold api_messages.
  rewrite processed_older;
    [ | exact V | rewrite length_app; simpl length; lia ].
  cbn [processed_messages_for_ai]. rewrite Ec, Er. cbn [res_bind].
  assert ((0 + Z.of_nat (length older)
           =? Z.of_nat (length (older ++ [last])) - 1) = true) as ->
    by (apply Z.eqb_eq; rewrite length_app; simpl length; lia).
  rewrite andb_true_r.
  destruct (String.eqb_spec role "user") as [->|Ne].
  - eexists. split; [reflexivity|]. split; [congruence|]. intros _.
    unfold current_msg_content.
    destruct (given reply_content && given reply_role).
    + exists (("[Replying to " ++ text_of reply_role ++ "'s message: "
               ++ dq
               ++ truncated_reply_to_content (text_of reply_content)
               ++ dq ++ "]") ++ " ")%string.
      now rewrite (str_app_assoc _ " " content).
    + exists ""%string. reflexivity.
  - exists last. split; [reflexivity|]. split; [reflexivity|].
    intros E. contradiction.
Qed.

Lemma api_messages_only_last_witness :
  let older := [[("role", "user"); ("content", "hi")];
                [("role", "assistant"); ("content", "hello")]]%string in
  let last := [("role", "user"); ("content", "again")]%string in
  exists last',
    api_messages (older ++ [last]) "Be kind." "No users." (Some 42)
      None None
    = Ok ([("role", "system");
           ("content", full_system_prompt "Be kind." "No users.")]%string
          :: older ++ [last'])
    /\ last' = [("role", "user"); ("content", "[User ID: 42] again")]%string.
Proof.
  cbv zeta.
  destruct (api_messages_only_last
              [[("role", "user"); ("content", "hi")];
               [("role", "assistant"); ("content", "hello")]]%string
              [("role", "user"); ("content", "again")]%string
              "Be kind." "No users." (Some 42) None None "user" "again")
    as (last' & Run & _ & User);
    [ intros m [<-|[<-|[]]]; split; reflexivity
    | reflexivity | reflexivity | ].
  exists last'. split; [exact Run|].
  vm_compute in Run. injection Run as Run. now rewrite <- Run.
Defined.

(* ===================================================================== *)
(** * The allowed chats *)
(* ===================================================================== *)

Lemma int_list_ints (ids : list Z) :
  Config.int_list (map PInt ids) = Ok ids.
Proof.
  induction ids as [|z ids IH]; [reflexivity|].
  simpl. rewrite IH. reflexivity.
Qed.

Lemma int_list_bad_text (before after : list pyval) (s : string) :
  (forall v, In v before -> exists z, Config.py_int v = Ok z) ->
  py_int_of_str s = Raise ValueError ->
  Config.int_list (before ++ PStr s :: after) = Raise ValueError.
Proof.
  intros Good Bad. induction before as [|v before IH].
  - simpl. now rewrite Bad.
  - simpl. destruct (Good v (or_introl eq_refl)) as (z & ->).
    cbn [res_bind]. rewrite IH; [reflexivity|].
    intros v' I. apply Good. now right.
Qed.

(** X16.  The whitelist is read all or nothing: a list of integers is
    taken as it is, a missing entry or an entry that is not a list gives
    the empty list, and so does a list in which a text that is no integer
    follows values that convert; with the empty list [is_chat_allowed]
    refuses every chat. *)
Theorem allowed_chat_ids_all_or_nothing :
  (forall ids, Config.allowed_chat_ids (Some (PList (map PInt ids))) = Ok ids)
  /\ Config.allowed_chat_ids None = Ok []
  /\ (forall v, (forall l, v <> PList l) ->
                Config.allowed_chat_ids (Some v) = Ok [])
  /\ (forall before s after,
        (forall v, In v before -> exists z, Config.py_int v = Ok z) ->
        py_int_of_str s = Raise ValueError ->
        Config.allowed_chat_ids (Some (PList (before ++ PStr s :: after)))
        = Ok [])
  /\ (forall chat_id, is_chat_allowed [] chat_id = false).
Proof.
  split; [intros ids; unfold Config.allowed_chat_ids;
          now rewrite int_list_ints|].
  split; [reflexivity|]. split.
  - intros v N. destruct v; try reflexivity. now destruct (N l).
  - split; [|reflexivity]. intros before s after Good Bad.
    unfold Config.allowed_chat_ids.
    now rewrite (int_list_bad_text before after s Good Bad).
Qed.

Lemma allowed_chat_ids_all_or_nothing_witness :
  Config.allowed_chat_ids
    (Some (PList [PInt (-1001); PStr "12"; PStr "my group"; PInt 5]))
  = Ok [].
Proof.
  apply (proj1 (proj2 (proj2 (proj2 allowed_chat_ids_all_or_nothing)))
           [PInt (-1001); PStr "12"] "my group" [PInt 5]).
  - intros v [<-|[<-|[]]]; eexists; reflexivity.
  - reflexivity.
Defined.

(* ===================================================================== *)
(** * Replies to the bot *)
(* ===================================================================== *)

Section Replies.
Context `{Tokenizer}.

(** On a thread of stored turns [get_history_for_ai] returns a list. *)
Lemma get_history_for_ai_returns (self : ChatManager) (thread_key : Z)
    (data : chat_data) :
  dict_get Z.eqb thread_key (active_chats self) = Some data ->
  (forall m, In m (messages data) -> is_message m = true) ->
  exists view,
    get_history_for_ai thread_key self = (Ok (Some view), self).
Proof.
  intros G V.
  destruct (trim_loop_spec (context_window_tokens self)
              (rev (messages data)) [] (system_prompt_tokens self))
    as (taken & rest & _ & Run & _);
    [intros m I; apply V; now apply in_rev|].
  unfold get_history_for_ai, bind, attr, lift, ret. rewrite G, Run.
  eexists. reflexivity.
Qed.

(** The synchronous part of the handler on a reply that has a target. *)
Lemma prepare_run (allowed_chat_ids : list Z) (update : reply_update)
    (now : Q) (self : ChatManager) (replied_id : Z) :
  valid_store (active_chats self) = true ->
  is_chat_allowed allowed_chat_ids (upd_chat_id update) = true ->
  upd_text update <> "" ->
  upd_reply_to_message update = Some replied_id ->
  (exists e, In e (active_chats self)
             /\ reply_target (upd_chat_id update) replied_id (snd e)) ->
  exists thread_key data role content,
    dict_get Z.eqb thread_key (active_chats self) = Some data
    /\ in_conversation data (upd_chat_id update)
    /\ In (message role content replied_id) (messages data)
    /\ let added :=
         snd (add_message_to_chat thread_key "user" (upd_text update)
                (upd_message_id update) now self) in
       handle_reply_to_bot_prepare allowed_chat_ids update now self
       = (Ok match fst (get_history_for_ai thread_key added) with
             | Ok (Some (m :: l)) =>
                 AskModel thread_key (m :: l) (PStr content) (PStr role)
             | _ => NoHistory thread_key
             end,
          added).
Proof.
  intros V Allowed Text Reply (e & Ie & Te).
  pose proof (valid_store_inv _ V) as [ND VC].
  destruct (reply_in_chats_spec (active_chats self) replied_id
              (upd_chat_id update) VC) as (r & Find & Spec).
  destruct r as [k|]; [|now destruct (Spec e Ie)].
  destruct Spec as (before & c & after & Split & [Conv Turn] & _).
  assert (Ic : In (k, c) (active_chats self))
    by (rewrite Split; apply in_elt).
  assert (G : dict_get Z.eqb k (active_chats self) = Some c)
    by (now apply (dict_get_in Z.eqb Z.eqb_eq)).
  assert (Vm : forall m, In m (messages c) -> is_message m = true)
    by (apply VC, valid_chat_inv in Ic; tauto).
  destruct (message_with_id_spec (messages c) replied_id Vm)
    as (found & Get & SpecM).
  destruct found as [m|];
    [|destruct Turn as (r0 & c0 & I0); now destruct (SpecM r0 c0)].
  destruct SpecM as (bef & aft & role & content & SplitM & -> & _).
  exists k, c, role, content. split; [exact G|]. split; [exact Conv|].
  split; [rewrite SplitM; apply in_elt|]. intros added.
  assert (Add : add_message_to_chat k "user" (upd_text update)
                  (upd_message_id update) now self = (Ok true, added)).
  { unfold added, add_message_to_chat, bind, attr. now rewrite G. }
  assert (V' : valid_store (active_chats added) = true)
    by (now apply add_message_to_chat_valid).
  assert (G' : exists data', dict_get Z.eqb k (active_chats added)
                             = Some data').
  { unfold added, add_message_to_chat, bind, attr. rewrite G.
    cbn [snd active_chats with_active_chats set_active_chats ret].
    eexists. apply (dict_get_set_eq Z.eqb Z.eqb_eq). }
  destruct G' as (data' & G').
  destruct (get_history_for_ai_returns added k data' G') as (view & Hist).
  { apply (dict_get_some_in Z.eqb Z.eqb_eq) in G'.
    apply (proj2 (valid_store_inv _ V')), valid_chat_inv in G'. tauto. }
  unfold handle_reply_to_bot_prepare.
  rewrite Allowed. cbn [negb].
  destruct (String.eqb_spec (upd_text update) "") as [E|_];
    [contradiction|].
  rewrite Reply.
  unfold bind at 1.
  unfold _find_thread_key_for_reply, bind at 1, attr, lift. rewrite Find.
  unfold bind at 1.
  unfold get_message_by_telegram_id, bind at 1, attr, lift. rewrite G, Get.
  unfold bind at 1. unfold lift.
  change (reply_context (Some (message role content replied_id)))
    with (Ok (PStr content, PStr role)).
  unfold bind at 1. rewrite Add.
  unfold bind at 1. rewrite Hist. cbn [fst snd].
  destruct view as [|m l]; reflexivity.
Qed.

(** X17.  A reply that the handler does not take up changes nothing: in
    a chat that is not allowed, with an empty text, without a message
    replied to, or when no thread of the chat holds the message replied
    to, [handle_reply_to_bot] returns before it touches the manager. *)
Theorem handle_reply_to_bot_ignores (allowed_chat_ids : list Z)
    (update : reply_update) (now : Q) (self : ChatManager) :
  valid_store (active_chats self) = true ->
  is_chat_allowed allowed_chat_ids (upd_chat_id update) = false
  \/ upd_text update = ""
  \/ upd_reply_to_message update = None
  \/ (exists replied_id,
        upd_reply_to_message update = Some replied_id
        /\ forall e, In e (active_chats self) ->
             ~ reply_target (upd_chat_id update) replied_id (snd e)) ->
  handle_reply_to_bot_prepare allowed_chat_ids update now self
  = (Ok Ignored, self).
Proof.
  intros V Why. unfold handle_reply_to_bot_prepare.
  destruct (is_chat_allowed allowed_chat_ids (upd_chat_id update));
    [|reflexivity].
  cbn [negb].
  destruct (String.eqb_spec (upd_text update) "") as [E|Text];
    [reflexivity|].
  destruct (upd_reply_to_message update) as [replied_id|] eqn:Reply;
    [|reflexivity].
  destruct Why as [C|[C|[C|(rid & [= <-] & NoTarget)]]];
    [discriminate C|contradiction|discriminate C|].
  destruct (reply_in_chats_spec (active_chats self) replied_id
              (upd_chat_id update) (proj2 (valid_store_inv _ V)))
    as (r & Find & Spec).
  unfold bind at 1.
  unfold _find_thread_key_for_reply, bind at 1, attr, lift. rewrite Find.
  destruct r as [k|]; [|reflexivity].
  destruct Spec as (before & c & after & Split & T & _).
  exfalso. apply (NoTarget (k, c)); [|exact T].
  rewrite Split. apply in_elt.
Qed.

(** The history of a thread whose newest turn is known. *)
Lemma history_by_newest (self : ChatManager) (thread_key : Z)
    (data : chat_data) (older : list pyval) (newest : pyval) :
  dict_get Z.eqb thread_key (active_chats self) = Some data ->
  (forall m, In m (messages data) -> is_message m = true) ->
  messages data = older ++ [newest] ->
  (system_prompt_tokens self + turn_tokens newest
   <= context_window_tokens self ->
   exists view,
     get_history_for_ai thread_key self
     = (Ok (Some (view ++ [ai_format newest])), self))
  /\ (context_window_tokens self
      < system_prompt_tokens self + turn_tokens newest ->
      get_history_for_ai thread_key self = (Ok (Some []), self)).
Proof.
  intros G V Split.
  assert (Vn : is_message newest = true)
    by (apply V; rewrite Split; apply in_elt).
  assert (Vo : forall m, In m (rev older) -> is_message m = true).
  { intros m I. apply V. rewrite Split, in_app_iff. left.
    now apply in_rev. }
  unfold get_history_for_ai, bind, attr, lift, ret. rewrite G, Split.
  rewrite rev_app_distr. cbn [rev app].
  rewrite trim_loop_step by exact Vn.
  destruct (Z.leb_spec (system_prompt_tokens self + turn_tokens newest)
              (context_window_tokens self)) as [Fit|Gt].
  - split; [intros _|lia].
    destruct (trim_loop_spec (context_window_tokens self) (rev older)
                [ai_format newest]
                (system_prompt_tokens self + turn_tokens newest) Vo)
      as (taken & rest & _ & Run & _).
    rewrite Run. cbn [fst]. eexists. reflexivity.
  - split; [lia|reflexivity].
Qed.

(** X18.  A reply to a turn of a thread of the same chat is recorded and
    answered in context.  The handler finds a thread of the chat that
    holds a turn with the id replied to and appends the user's text to it
    as a user turn, which is all it changes.  When that turn fits the
    budget beside the system prompt it goes on to ask the model, with the
    trimmed history of the thread, which ends with the user's turn, and
    with the content and the role of a turn that carries the id replied
    to; when the turn does not fit it stops for lack of history. *)
Theorem handle_reply_to_bot_prepares (allowed_chat_ids : list Z)
    (update : reply_update) (now : Q) (self : ChatManager) (replied_id : Z) :
  valid_store (active_chats self) = true ->
  is_chat_allowed allowed_chat_ids (upd_chat_id update) = true ->
  upd_text update <> "" ->
  upd_reply_to_message update = Some replied_id ->
  (exists e, In e (active_chats self)
             /\ reply_target (upd_chat_id update) replied_id (snd e)) ->
  exists thread_key data role content,
    dict_get Z.eqb thread_key (active_chats self) = Some data
    /\ in_conversation data (upd_chat_id update)
    /\ In (message role content replied_id) (messages data)
    /\ let newest :=
         message "user" (upd_text update) (upd_message_id update) in
       let added :=
         snd (add_message_to_chat thread_key "user" (upd_text update)
                (upd_message_id update) now self) in
       (system_prompt_tokens self + turn_tokens newest
        <= context_window_tokens self ->
        exists view,
          fst (get_history_for_ai thread_key added)
          = Ok (Some (view ++ [ai_format newest]))
          /\ handle_reply_to_bot_prepare allowed_chat_ids update now self
             = (Ok (AskModel thread_key (view ++ [ai_format newest])
                      (PStr content) (PStr role)),
                added))
       /\ (context_window_tokens self
           < system_prompt_tokens self + turn_tokens newest ->
           handle_reply_to_bot_prepare allowed_chat_ids update now self
           = (Ok (NoHistory thread_key), added)).
Proof.
  intros V Allowed Text Reply Target.
  destruct (prepare_run allowed_chat_ids update now self replied_id
              V Allowed Text Reply Target)
    as (k & data & role & content & G & Conv & Turn & Run).
  cbv zeta in Run.
  exists k, data, role, content.
  split; [exact G|]. split; [exact Conv|]. split; [exact Turn|].
  intros newest added. fold added in Run.
  assert (A : added
              = with_active_chats
                  (dict_set Z.eqb k
                     {| messages := messages data ++ [newest];
                        last_interaction := PFloat now;
                        chat_id := chat_id data |}
                     (active_chats self)) self).
  { unfold added, add_message_to_chat, bind, attr. now rewrite G. }
  assert (V' : valid_store (active_chats added) = true)
    by (now apply add_message_to_chat_valid).
  assert (G' : dict_get Z.eqb k (active_chats added)
               = Some {| messages := messages data ++ [newest];
                         last_interaction := PFloat now;
                         chat_id := chat_id data |}).
  { rewrite A. cbn [active_chats with_active_chats].
    apply (dict_get_set_eq Z.eqb Z.eqb_eq). }
  assert (Vm : forall m, In m (messages data ++ [newest]) ->
                         is_message m = true).
  { pose proof (dict_get_some_in Z.eqb Z.eqb_eq _ _ _ G') as I.
    apply (proj2 (valid_store_inv _ V')), valid_chat_inv in I.
    destruct I as (Vm & _). exact Vm. }
  destruct (history_by_newest added k _ (messages data) newest G' Vm
              eq_refl) as [Fits Over].
  assert (Same : system_prompt_tokens added = system_prompt_tokens self
                 /\ context_window_tokens added
                    = context_window_tokens self)
    by (rewrite A; split; reflexivity).
  destruct Same as [Sp Sw]. rewrite Sp, Sw in Fits, Over. split.
  - intros Fit. destruct (Fits Fit) as (view & Hist).
    exists view. rewrite Run, Hist. cbn [fst]. split; [reflexivity|].
    destruct view; reflexivity.
  - intros Gt. rewrite Run, (Over Gt). reflexivity.
Qed.

(** X19.  A reply that is answered adds two turns: when the handler has
    asked the model and a non-empty answer was sent, the thread holds its
    old turns, then the user's text, then the answer, and the time of the
    answer as its last activity. *)
Theorem handle_reply_to_bot_exchange (allowed_chat_ids : list Z)
    (update : reply_update) (now answered : Q) (self : ChatManager)
    (replied_id : Z) (ai_response_text : string)
    (new_bot_reply_message_id : Z)
    (thread_key : Z) (history : list pyval) (content role : pyval) :
  valid_store (active_chats self) = true ->
  is_chat_allowed allowed_chat_ids (upd_chat_id update) = true ->
  upd_text update <> "" ->
  upd_reply_to_message update = Some replied_id ->
  (exists e, In e (active_chats self)
             /\ reply_target (upd_chat_id update) replied_id (snd e)) ->
  fst (handle_reply_to_bot_prepare allowed_chat_ids update now self)
  = Ok (AskModel thread_key history content role) ->
  ai_response_text <> "" ->
  let asked :=
    snd (handle_reply_to_bot_prepare allowed_chat_ids update now self) in
  let done :=
    snd (handle_reply_to_bot_record thread_key ai_response_text
           new_bot_reply_message_id answered asked) in
  exists data,
    dict_get Z.eqb thread_key (active_chats self) = Some data
    /\ dict_get Z.eqb thread_key (active_chats done)
       = Some {| messages :=
                   messages data
                   ++ [message "user" (upd_text update)
                         (upd_message_id update);
                       message "assistant" ai_response_text
                         new_bot_reply_message_id];
                 last_interaction := PFloat answered;
                 chat_id := chat_id data |}.
Proof.
  intros V Allowed Text Reply Target Asked Answer asked done.
  destruct (prepare_run allowed_chat_ids update now self replied_id
              V Allowed Text Reply Target)
    as (k & data & role0 & content0 & G & _ & _ & Run).
  cbv zeta in Run.
  assert (k = thread_key) as ->.
  { rewrite Run in Asked. cbn [fst] in Asked.
    destruct (fst (get_history_for_ai k _)) as [[[|m l]|]|e];
      now injection Asked. }
  exists data. split; [exact G|].
  unfold done, asked. rewrite Run. cbn [snd].
  unfold handle_reply_to_bot_record.
  destruct (String.eqb_spec ai_response_text "") as [E|_];
    [contradiction|].
  unfold add_message_to_chat at 2, bind, attr. rewrite G.
  cbn [snd active_chats with_active_chats set_active_chats ret].
  unfold add_message_to_chat, bind, attr.
  cbn [active_chats with_active_chats].
  rewrite (dict_get_set_eq Z.eqb Z.eqb_eq).
  cbn [snd active_chats with_active_chats set_active_chats ret messages
         chat_id].
  rewrite (dict_get_set_eq Z.eqb Z.eqb_eq).
  now rewrite <- app_assoc.
Qed.
End Replies.

Lemma handle_reply_to_bot_ignores_witness :
  let self := Sample.manager Sample.store 0 120 in
  let update := {| upd_chat_id := 3; upd_message_id := 900;
                   upd_text := "hello?"; upd_from_user_id := 42;
                   upd_reply_to_message := Some 200 |} in
  valid_store (active_chats self) = true
  /\ is_chat_allowed [1; 2] 3 = false
  /\ handle_reply_to_bot_prepare (H := Sample.char_tokenizer) [1; 2] update
       (inject_Z 2000) self
     = (Ok Ignored, self).
Proof.
  cbv zeta. split; [reflexivity|]. split; [reflexivity|].
  apply (handle_reply_to_bot_ignores (H := Sample.char_tokenizer) [1; 2]
           {| upd_chat_id := 3; upd_message_id := 900;
              upd_text := "hello?"; upd_from_user_id := 42;
              upd_reply_to_message := Some 200 |}
           (inject_Z 2000) (Sample.manager Sample.store 0 120) eq_refl).
  left. reflexivity.
Defined.

Lemma sample_target :
  exists e, In e Sample.store /\ reply_target 2 200 (snd e).
Proof.
  exists (300, Sample.thread300). split; [right; now left|].
  split; [reflexivity|]. exists "assistant", "yes". right. now left.
Defined.

Lemma handle_reply_to_bot_prepares_witness :
  let self := Sample.manager Sample.store 0 120 in
  let update := {| upd_chat_id := 2; upd_message_id := 900;
                   upd_text := "why?"; upd_from_user_id := 42;
                   upd_reply_to_message := Some 200 |} in
  valid_store (active_chats self) = true
  /\ handle_reply_to_bot_prepare (H := Sample.char_tokenizer) [1; 2]
       update (inject_Z 2000) self
     = (Ok (AskModel 300
              [PDict [("role", PStr "user"); ("content", PStr "hey")];
               PDict [("role", PStr "assistant"); ("content", PStr "yes")];
               PDict [("role", PStr "user"); ("content", PStr "why?")]]
              (PStr "yes") (PStr "assistant")),
        snd (add_message_to_chat 300 "user" "why?" 900 (inject_Z 2000)
               self)).
Proof.
  cbv zeta. split; [reflexivity|].
  destruct (handle_reply_to_bot_prepares (H := Sample.char_tokenizer)
              [1; 2]
              {| upd_chat_id := 2; upd_message_id := 900;
                 upd_text := "why?"; upd_from_user_id := 42;
                 upd_reply_to_message := Some 200 |}
              (inject_Z 2000) (Sample.manager Sample.store 0 120) 200
              eq_refl eq_refl ltac:(discriminate) eq_refl sample_target)
    as (k & data & role & content & _ & _ & _ & Fits & _).
  cbv zeta in Fits.
  destruct Fits as (view & _ & Run); [vm_compute; discriminate|].
  rewrite Run. vm_compute in Run. vm_compute. now injection Run.
Defined.

Lemma handle_reply_to_bot_exchange_witness :
  let self := Sample.manager Sample.store 0 120 in
  let update := {| upd_chat_id := 2; upd_message_id := 900;
                   upd_text := "why?"; upd_from_user_id := 42;
                   upd_reply_to_message := Some 200 |} in
  let asked :=
    snd (handle_reply_to_bot_prepare (H := Sample.char_tokenizer) [1; 2]
           update (inject_Z 2000) self) in
  let done :=
    snd (handle_reply_to_bot_record 300 "because" 901 (inject_Z 2005)
           asked) in
  exists data,
    dict_get Z.eqb 300 (active_chats self) = Some data
    /\ dict_get Z.eqb 300 (active_chats done)
       = Some {| messages :=
                   messages data
                   ++ [message "user" "why?" 900;
                       message "assistant" "because" 901];
                 last_interaction := PFloat (inject_Z 2005);
                 chat_id := chat_id data |}.
Proof.
  cbv zeta.
  eapply (handle_reply_to_bot_exchange (H := Sample.char_tokenizer) [1; 2]
            {| upd_chat_id := 2; upd_message_id := 900;
               upd_text := "why?"; upd_from_user_id := 42;
               upd_reply_to_message := Some 200 |}
            (inject_Z 2000) (inject_Z 2005)
            (Sample.manager Sample.store 0 120) 200 "because" 901 300
            _ _ _ eq_refl eq_refl ltac:(discriminate) eq_refl sample_target).
  - vm_compute. reflexivity.
  - discriminate.
Defined.
